(** * Phone directory: validation, persistence, pagination, edit and search

    A shallow embedding of [phone_directory.py] (the pydantic dataclass
    [Record] and the class [PhoneDirectory]) together with the properties
    its specification states about it. *)

From Stdlib Require Import String Ascii List Bool NArith ZArith Lia.
Import ListNotations.

Set Implicit Arguments.
Set Warnings "-register-all".

(** ** Python strings

    A Python [str] is a sequence of Unicode code points.  The regular
    expressions of the program test code points against ranges, so a string
    is modelled as the list of its code points. *)

Definition pystr := list N.

(** The code points a UTF-8 byte sequence encodes (sequences of one to four
    bytes; the literals below are well-formed). *)
Fixpoint utf8_decode (bytes : list N) : pystr :=
  match bytes with
  | [] => []
  | b :: rest =>
      if (b <? 128)%N then b :: utf8_decode rest
      else
        match rest with
        | [] => []
        | c :: rest1 =>
            if (b <? 224)%N then ((b - 192) * 64 + (c - 128))%N :: utf8_decode rest1
            else
              match rest1 with
              | [] => []
              | d :: rest2 =>
                  if (b <? 240)%N
                  then ((b - 224) * 4096 + (c - 128) * 64 + (d - 128))%N :: utf8_decode rest2
                  else
                    match rest2 with
                    | [] => []
                    | e :: rest3 =>
                        ((b - 240) * 262144 + (c - 128) * 4096 + (d - 128) * 64 + (e - 128))%N
                        :: utf8_decode rest3
                    end
              end
        end
  end.

(** A literal of this file as a Python string. *)
Definition str (s : string) : pystr :=
  utf8_decode (map N_of_ascii (list_ascii_of_string s)).

(** [a == b] on strings. *)
Fixpoint str_eqb (a b : pystr) : bool :=
  match a, b with
  | [], [] => true
  | x :: a', y :: b' => N.eqb x y && str_eqb a' b'
  | _, _ => false
  end.

(** [s.startswith(p)], the inner test of the substring search. *)
Fixpoint startswith (p s : pystr) : bool :=
  match p, s with
  | [], _ => true
  | x :: p', y :: s' => N.eqb x y && startswith p' s'
  | _ :: _, [] => false
  end.

(** [sub in s]: [sub] occurs in [s] as a contiguous substring. *)
Fixpoint str_in (sub s : pystr) : bool :=
  startswith sub s ||
  match s with
  | [] => false
  | _ :: s' => str_in sub s'
  end.

(** The code point of ['='] . *)
Definition eq_sign : N := 61%N.

(** [s.split(chr(sep))]: cut at every occurrence of the separator. *)
Fixpoint split (sep : N) (s : pystr) : list pystr :=
  match s with
  | [] => [[]]
  | c :: s' =>
      if N.eqb c sep then [] :: split sep s'
      else match split sep s' with
           | [] => [[c]]
           | p :: ps => (c :: p) :: ps
           end
  end.

(** The specification's notion of substring. *)
Definition Substring (sub s : pystr) : Prop :=
  exists pre post, s = pre ++ sub ++ post.

(** ** Python sequences: indexing and slicing *)

(** [l[i]] with Python's negative indices; [None] stands for [IndexError]. *)
Definition py_index {A} (l : list A) (i : Z) : option A :=
  let n := Z.of_nat (length l) in
  if (0 <=? i)%Z then nth_error l (Z.to_nat i)
  else if (- n <=? i)%Z then nth_error l (Z.to_nat (n + i))
  else None.

(** How a slice bound is brought into [0..n]: a negative bound counts from
    the end, and both are clipped. *)
Definition slice_bound (n i : Z) : Z :=
  if (i <? 0)%Z then Z.max (i + n) 0 else Z.min i n.

(** [l[start:stop]]. *)
Definition py_slice {A} (l : list A) (start stop : Z) : list A :=
  let n := Z.of_nat (length l) in
  let a := slice_bound n start in
  let b := slice_bound n stop in
  firstn (Z.to_nat (b - a)) (skipn (Z.to_nat a) l).

(** [enumerate(l, start)]. *)
Fixpoint enumerate {A} (l : list A) (start : Z) : list (Z * A) :=
  match l with
  | [] => []
  | x :: l' => (start, x) :: enumerate l' (start + 1)
  end.

(** The quotient [n / s] of two integers is a float.  For [n > 0] it is
    [0.0] when the exact quotient is at most [2^-1075], half the least
    positive float. *)
Definition underflow_bound : Z := (2 ^ 1075)%Z.

(** [math.ceil(n / s)] for [s <> 0] and a list length [n] (below 2^53, as
    every list a machine holds): the float quotient is the exact quotient
    correctly rounded, so its ceiling is the exact ceiling unless the
    quotient underflows to [0.0].  [Z.div] rounds down like Python's [//]. *)
Definition ceil_div (n s : Z) : Z :=
  if ((0 <? n) && (n * underflow_bound <=? s))%Z then 0%Z
  else (- ((- n) / s))%Z.

(** ** Regular expressions

    The two patterns of [Record] use character classes, concatenation,
    optional parts and bounded or unbounded repetition.  They are matched by
    Brzozowski derivatives, which decide whether some way of matching
    exists, as the backtracking matcher of [re] does for such patterns. *)

Inductive regex : Type :=
| Void
| Eps
| Cls (p : N -> bool)
| Cat (r s : regex)
| Alt (r s : regex)
| Star (r : regex).

(** [r?], [r+] and [r{n}], [r{lo,lo+k}]. *)
Definition Opt (r : regex) : regex := Alt r Eps.
Definition Plus (r : regex) : regex := Cat r (Star r).

Fixpoint Rep (n : nat) (r : regex) : regex :=
  match n with
  | O => Eps
  | S n' => Cat r (Rep n' r)
  end.

Fixpoint UpTo (k : nat) (r : regex) : regex :=
  match k with
  | O => Eps
  | S k' => Opt (Cat r (UpTo k' r))
  end.

Definition RepRange (lo k : nat) (r : regex) : regex := Cat (Rep lo r) (UpTo k r).

Fixpoint nullable (r : regex) : bool :=
  match r with
  | Void => false
  | Eps => true
  | Cls _ => false
  | Cat r s => nullable r && nullable s
  | Alt r s => nullable r || nullable s
  | Star _ => true
  end.

Fixpoint deriv (c : N) (r : regex) : regex :=
  match r with
  | Void => Void
  | Eps => Void
  | Cls p => if p c then Eps else Void
  | Cat r s =>
      if nullable r then Alt (Cat (deriv c r) s) (deriv c s)
      else Cat (deriv c r) s
  | Alt r s => Alt (deriv c r) (deriv c s)
  | Star r => Cat (deriv c r) (Star r)
  end.

(** The whole of [s] matches [r]. *)
Fixpoint fullmatch (r : regex) (s : pystr) : bool :=
  match s with
  | [] => nullable r
  | c :: s' => fullmatch (deriv c r) s'
  end.

(** The language of a regular expression. *)
Inductive Matches : regex -> pystr -> Prop :=
| MEps : Matches Eps []
| MCls p c : p c = true -> Matches (Cls p) [c]
| MCat r s u v : Matches r u -> Matches s v -> Matches (Cat r s) (u ++ v)
| MAltL r s u : Matches r u -> Matches (Alt r s) u
| MAltR r s u : Matches s u -> Matches (Alt r s) u
| MStarNil r : Matches (Star r) []
| MStarApp r u v : Matches r u -> Matches (Star r) v -> Matches (Star r) (u ++ v).

(** The code point of the newline. *)
Definition newline : N := 10%N.

(** [re.match(p, s)] is truthy, for a pattern [p] written [^body$] and no
    flags.  [re.match] looks for a match at the start of [s] ([^] adds
    nothing), and [$] holds at the end of the string and just before a
    newline that ends the string: a match exists when [s], or [s] without
    its final newline, is in the language of [body]. *)
Definition re_match_anchored (body : regex) (s : pystr) : bool :=
  fullmatch (Cat body (Opt (Cls (N.eqb newline)))) s.

(** ** Character classes of the two patterns *)

Definition in_range (lo hi c : N) : bool := N.leb lo c && N.leb c hi.

(** [[0-9]]: the ASCII digits. *)
Definition is_digit (c : N) : bool := in_range 48 57 c.

(** [\s] in a [str] pattern: the whitespace of Unicode. *)
Definition is_space (c : N) : bool :=
  in_range 9 13 c || in_range 28 32 c || N.eqb c 133 || N.eqb c 160
  || N.eqb c 5760 || in_range 8192 8202 c || N.eqb c 8232 || N.eqb c 8233
  || N.eqb c 8239 || N.eqb c 8287 || N.eqb c 12288.

(** [[a-zA-Zа-яА-Я\s]]: Latin letters, the Cyrillic letters U+0410..U+044F
    and whitespace. *)
Definition is_name_char (c : N) : bool :=
  in_range 97 122 c || in_range 65 90 c
  || in_range 1072 1103 c || in_range 1040 1071 c || is_space c.

(** [[-\s\.]]. *)
Definition is_separator (c : N) : bool :=
  N.eqb c 45 || is_space c || N.eqb c 46.

Definition is_char (a : ascii) (c : N) : bool := N.eqb c (N_of_ascii a).

(** [^[a-zA-Zа-яА-Я\s]+(?:-[a-zA-Zа-яА-Я\s]+)?$], between the anchors. *)
Definition name_pattern : regex :=
  Cat (Plus (Cls is_name_char))
      (Opt (Cat (Cls (is_char "-")) (Plus (Cls is_name_char)))).

(** [^[\+]?[(]?[0-9]{3}[)]?[-\s\.]?[0-9]{3}[-\s\.]?[0-9]{4,6}$], between the
    anchors. *)
Definition phone_pattern : regex :=
  Cat (Opt (Cls (is_char "+")))
 (Cat (Opt (Cls (is_char "(")))
 (Cat (Rep 3 (Cls is_digit))
 (Cat (Opt (Cls (is_char ")")))
 (Cat (Opt (Cls is_separator))
 (Cat (Rep 3 (Cls is_digit))
 (Cat (Opt (Cls is_separator))
      (RepRange 4 2 (Cls is_digit)))))))).


(** ** Values, exceptions and results *)

(** What [json.load] returns, and what a keyword argument of [Record] can
    hold: [None], booleans, numbers, strings, lists and dictionaries (a
    dictionary in the order of its keys, each key once). *)
Inductive pyval : Type :=
| VNone
| VBool (b : bool)
| VInt (z : Z)
| VFloat (bits : N)
| VStr (s : pystr)
| VList (l : list pyval)
| VDict (kv : list (pystr * pyval)).

(** Why pydantic refuses one field. *)
Inductive field_error : Type :=
| InvalidData        (* "Invalid data. Please enter a valid data" *)
| InvalidPhoneNumber (* "Invalid phone number" *)
| StringType         (* the value is not a string *)
| MissingArgument.   (* the field is not given *)

(** The exceptions the program raises or lets through. *)
Inductive exn : Type :=
| PydanticCustomError (e : field_error)
| ValidationError (errors : list (pystr * field_error))
| ValueError
| TypeError
| AttributeError
| IndexError
| ZeroDivisionError
| EOFError
| JSONDecodeError
| UnicodeDecodeError
| OtherError (name : pystr).   (* any other exception class *)

Inductive result (A : Type) : Type :=
| Return (a : A)
| Raise (e : exn).

Arguments Return {A} a.
Arguments Raise {A} e.

(** ** Record *)

(** The dataclass [Record]: six string attributes.  An attribute can be
    assigned after construction, so the type itself promises nothing about
    the patterns. *)
Record RecordT : Type := mkRecord {
  last_name : pystr;
  first_name : pystr;
  middle_name : pystr;
  organization : pystr;
  work_phone : pystr;
  personal_phone : pystr
}.

(** [Record.validate_string_fields]. *)
Definition validate_string_fields (value : pystr) : result pystr :=
  if negb (re_match_anchored name_pattern value)
  then Raise (PydanticCustomError InvalidData)
  else Return value.

(** [Record.validate_phone]. *)
Definition validate_phone (value : pystr) : result pystr :=
  if negb (re_match_anchored phone_pattern value)
  then Raise (PydanticCustomError InvalidPhoneNumber)
  else Return value.

(** The six fields, in the order of the class body. *)
Inductive Field : Type :=
| f_last_name | f_first_name | f_middle_name | f_organization
| f_work_phone | f_personal_phone.

Definition fields : list Field :=
  [f_last_name; f_first_name; f_middle_name; f_organization;
   f_work_phone; f_personal_phone].

Definition field_name (f : Field) : pystr :=
  match f with
  | f_last_name => str "last_name"
  | f_first_name => str "first_name"
  | f_middle_name => str "middle_name"
  | f_organization => str "organization"
  | f_work_phone => str "work_phone"
  | f_personal_phone => str "personal_phone"
  end.

(** The field a string names, if any. *)
Definition field_of_name (name : pystr) : option Field :=
  find (fun f => str_eqb name (field_name f)) fields.

(** The validator [field_validator] attaches to each field. *)
Definition field_validator (f : Field) : pystr -> result pystr :=
  match f with
  | f_work_phone | f_personal_phone => validate_phone
  | _ => validate_string_fields
  end.

Definition get_field (f : Field) (r : RecordT) : pystr :=
  match f with
  | f_last_name => last_name r
  | f_first_name => first_name r
  | f_middle_name => middle_name r
  | f_organization => organization r
  | f_work_phone => work_phone r
  | f_personal_phone => personal_phone r
  end.

(** [setattr(record, name, value)] for a field name.  The dataclass is
    declared without [validate_assignment], so pydantic runs no validator
    on assignment. *)
Definition set_field (f : Field) (v : pystr) (r : RecordT) : RecordT :=
  match f with
  | f_last_name => mkRecord v (first_name r) (middle_name r) (organization r) (work_phone r) (personal_phone r)
  | f_first_name => mkRecord (last_name r) v (middle_name r) (organization r) (work_phone r) (personal_phone r)
  | f_middle_name => mkRecord (last_name r) (first_name r) v (organization r) (work_phone r) (personal_phone r)
  | f_organization => mkRecord (last_name r) (first_name r) (middle_name r) v (work_phone r) (personal_phone r)
  | f_work_phone => mkRecord (last_name r) (first_name r) (middle_name r) (organization r) v (personal_phone r)
  | f_personal_phone => mkRecord (last_name r) (first_name r) (middle_name r) (organization r) (work_phone r) v
  end.

(** [dataclasses.asdict(record)]: the fields by name, in order. *)
Definition asdict (r : RecordT) : list (pystr * pyval) :=
  map (fun f => (field_name f, VStr (get_field f r))) fields.

(** [d.get(key)] on a dictionary. *)
Fixpoint dict_get (key : pystr) (kv : list (pystr * pyval)) : option pyval :=
  match kv with
  | [] => None
  | (k, v) :: kv' => if str_eqb key k then Some v else dict_get key kv'
  end.

(** What pydantic does with one field when [Record] is called with the
    keyword arguments [kwargs]: the argument
    must be there and be a string, and then the field's validator runs. *)
Definition validate_field (kwargs : list (pystr * pyval)) (f : Field)
  : pystr + field_error :=
  match dict_get (field_name f) kwargs with
  | None => inr MissingArgument
  | Some (VStr s) =>
      match field_validator f s with
      | Return v => inl v
      | Raise (PydanticCustomError e) => inr e
      | Raise _ => inr InvalidData
      end
  | Some _ => inr StringType
  end.

(** The errors of all fields, in field order: pydantic validates every
    field and reports the failures together. *)
Definition field_errors (kwargs : list (pystr * pyval)) : list (pystr * field_error) :=
  flat_map (fun f => match validate_field kwargs f with
                     | inl _ => []
                     | inr e => [(field_name f, e)]
                     end) fields.

Definition validated (kwargs : list (pystr * pyval)) (f : Field) : pystr :=
  match validate_field kwargs f with
  | inl v => v
  | inr _ => []
  end.

(** The name of the first parameter of the [__init__] that pydantic gives
    the dataclass: [__init__(__dataclass_self__, *args, **kwargs)]. *)
Definition self_parameter : pystr := str "__dataclass_self__".

(** [Record] called with the keyword arguments [kwargs].  A keyword named
    like the first parameter of [__init__] makes the call itself fail with
    [TypeError], before any validation.  Other keyword arguments that name
    no field are ignored, pydantic's default for a dataclass. *)
Definition Record_init (kwargs : list (pystr * pyval)) : result RecordT :=
  match dict_get self_parameter kwargs with
  | Some _ => Raise TypeError
  | None =>
      match field_errors kwargs with
      | [] => Return (mkRecord (validated kwargs f_last_name) (validated kwargs f_first_name)
                               (validated kwargs f_middle_name) (validated kwargs f_organization)
                               (validated kwargs f_work_phone) (validated kwargs f_personal_phone))
      | errors => Raise (ValidationError errors)
      end
  end.

(** [Record] called with a value [data] read from the file unpacked as its
    keyword arguments: unpacking wants a mapping. *)
Definition Record_of (data : pyval) : result RecordT :=
  match data with
  | VDict kwargs => Record_init kwargs
  | _ => Raise TypeError
  end.

(** Every field of the record satisfies the pattern of its role. *)
Definition record_valid (r : RecordT) : bool :=
  forallb (fun f => match field_validator f (get_field f r) with
                    | Return _ => true
                    | Raise _ => false
                    end) fields.

(** What an attribute of a [Record] object can be, as far as [search_records]
    can tell: a string, or an object with no [lower] method (a bound method,
    a dictionary, a class). *)
Inductive attribute : Type :=
| AttrStr (s : pystr)
| AttrObject.

(** The two validators are attributes of the class. *)
Definition method_names : list pystr :=
  [str "validate_string_fields"; str "validate_phone"].

(** ** Output *)

Inductive message : Type :=
| MsgJSONDecodeError              (* "Error decoding JSON in the file. ..." *)
| MsgValidationError (e : exn)    (* "Validation error in the data: {e}" *)
| MsgFailedToAdd (e : exn)        (* "Failed to add entry: {e}" *)
| MsgEntryAdded                   (* "Entry added successfully." *)
| MsgEntryEdited                  (* "Entry edited successfully." *)
| MsgInvalidInput                 (* "Invalid input. Please enter a valid field number." *)
| MsgInvalidIndex                 (* "Invalid index." *)
| MsgCurrentValues                (* "Current values:" *)
| MsgValue (key value : pystr)    (* "{formatted_key}: {value}" *)
| MsgChooseField                  (* "Choose a field to edit:" *)
| MsgChoice (i : Z) (key : pystr) (* "{i}. {formatted_field}" *)
| MsgRecord (index : Z) (r : RecordT)  (* the block "ID {index} ..." of one record *)
| MsgPage (page_number total : Z) (* "Page {page_number}/{total}" *)
| MsgNoField (name : pystr).      (* "Field '{field}' does not exist." *)

(** What the program prints, asks for and logs, in order. *)
Inductive event : Type :=
| Print (m : message)
| Prompt                  (* a call of [input] that read a line *)
| LogError (m : message)
| LogException (m : message).

(** ** PhoneDirectory *)

Section Model.

(** The contents of a file, with the two functions of [json] the program
    calls: [json.dump] of a value (with [indent=2]), and [json.load], which
    reads the file and decodes it.  [json.load] raises [UnicodeDecodeError]
    when the bytes of the file are not text in the encoding of the file
    object, and [JSONDecodeError] when the text is not JSON. *)
Variable text : Type.
Variable json_dump : pyval -> text.
Variable json_load : text -> result pyval.

(** [str.lower]: Unicode lower-casing, which is not a map on single
    characters (a final sigma depends on its place). *)
Variable lower : pystr -> pystr.

(** [int(s)] for a string; [None] stands for [ValueError]. *)
Variable py_int : pystr -> option Z.

(** The attributes a [Record] object has besides its fields and the two
    validators of the class body: what [object], [dataclass] and pydantic
    give it. *)
Variable inherited_attrs : pystr -> option attribute.

(** The object and its surroundings: the file at [self.file_path] ([None]
    when it does not exist), [self.records], the lines waiting on standard
    input, and what has been printed and logged so far. *)
Record state : Type := mkState {
  file : option text;
  records : list RecordT;
  stdin : list pystr;
  output : list event
}.

Definition emit (es : list event) (st : state) : state :=
  mkState (file st) (records st) (stdin st) (output st ++ es).

Definition set_records (rs : list RecordT) (st : state) : state :=
  mkState (file st) rs (stdin st) (output st).

(** [for data in records_data]: what iterating over a decoded value gives. *)
Definition py_iter (v : pyval) : result (list pyval) :=
  match v with
  | VList l => Return l
  | VDict kv => Return (map (fun p => VStr (fst p)) kv)
  | VStr s => Return (map (fun c => VStr [c]) s)
  | _ => Raise TypeError
  end.

(** The list comprehension of [load_records]: the records are built in
    order, and the first exception ends it. *)
Fixpoint build_records (items : list pyval) : result (list RecordT) :=
  match items with
  | [] => Return []
  | data :: rest =>
      match Record_of data with
      | Raise e => Raise e
      | Return r =>
          match build_records rest with
          | Raise e => Raise e
          | Return rs => Return (r :: rs)
          end
      end
  end.

(** The body of the [try] of [load_records], for a file that exists. *)
Definition read_records (t : text) : result (list RecordT) :=
  match json_load t with
  | Raise e => Raise e
  | Return records_data =>
      match py_iter records_data with
      | Raise e => Raise e
      | Return items => build_records items
      end
  end.

(** [PhoneDirectory.load_records]: a missing file ([FileNotFoundError]),
    [JSONDecodeError] and [ValidationError] are caught; every other exception
    is let through. *)
Definition load_records (st : state) : result (list RecordT) * state :=
  match file st with
  | None => (Return [], st)
  | Some t =>
      match read_records t with
      | Return rs => (Return rs, st)
      | Raise JSONDecodeError => (Return [], emit [LogError MsgJSONDecodeError] st)
      | Raise (ValidationError errors) =>
          (Return [], emit [LogError (MsgValidationError (ValidationError errors))] st)
      | Raise e => (Raise e, st)
      end
  end.

(** [PhoneDirectory.__init__]. *)
Definition init (st : state) : result unit * state :=
  match load_records st with
  | (Return rs, st') => (Return tt, set_records rs st')
  | (Raise e, st') => (Raise e, st')
  end.

(** The value [save_records] serialises. *)
Definition records_data (rs : list RecordT) : pyval :=
  VList (map (fun record => VDict (asdict record)) rs).

(** [PhoneDirectory.save_records]. *)
Definition save_records (st : state) : state :=
  mkState (Some (json_dump (records_data (records st)))) (records st) (stdin st) (output st).

(** [records or self.records]: an empty list is falsy, like [None]. *)
Definition py_or (rs : option (list RecordT)) (default : list RecordT) : list RecordT :=
  match rs with
  | Some (r :: rs') => r :: rs'
  | Some [] => default
  | None => default
  end.

(** [PhoneDirectory.display_records]. *)
Definition display_records (st : state) (rs : option (list RecordT))
    (entries_per_page page_number : Z) : result unit * state :=
  let records_to_display := py_or rs (records st) in
  let start_index := ((page_number - 1) * entries_per_page)%Z in
  let end_index := (start_index + entries_per_page)%Z in
  let current_page_records := py_slice records_to_display start_index end_index in
  let st1 := emit (map (fun ir => Print (MsgRecord (fst ir) (snd ir)))
                       (enumerate current_page_records (start_index + 1))) st in
  if (entries_per_page =? 0)%Z then (Raise ZeroDivisionError, st1)
  else (Return tt,
        emit [Print (MsgPage page_number
                       (ceil_div (Z.of_nat (length records_to_display)) entries_per_page))] st1).

(** [PhoneDirectory.add_record]: nothing in the [try] raises
    [ValidationError]. *)
Definition add_record (st : state) (record : RecordT) : state :=
  emit [Print MsgEntryAdded] (save_records (set_records (records st ++ [record]) st)).

(** [input(prompt)]. *)
Definition input (st : state) : result pystr * state :=
  match stdin st with
  | [] => (Raise EOFError, st)
  | line :: rest => (Return line, mkState (file st) (records st) rest (output st ++ [Prompt]))
  end.

(** [l[i] = x] for an index in range. *)
Fixpoint list_set {A} (l : list A) (i : nat) (x : A) : list A :=
  match l, i with
  | [], _ => []
  | _ :: l', O => x :: l'
  | y :: l', S i' => y :: list_set l' i' x
  end.

(** [PhoneDirectory.edit_record].  [record] is the object held in
    [self.records], so the assignment changes the list.  The records are
    modelled as values, each entry of [self.records] a distinct object, as in
    every directory the program builds ([load_records] makes a new object for
    each entry, and [main] adds a newly made one): the assignment changes
    the entry at the index.  Were one object held at several positions (a
    caller of [add_record] can pass it twice), those entries, which are equal
    to the edited one before, would be equal to it after. *)
Definition edit_record (st : state) (index : Z) : result unit * state :=
  if ((0 <=? index) && (index <? Z.of_nat (length (records st))))%Z then
    match nth_error (records st) (Z.to_nat index) with
    | None => (Raise IndexError, st)
    | Some record =>
        let st1 :=
          emit ([Print MsgCurrentValues]
                ++ map (fun f => Print (MsgValue (field_name f) (get_field f record))) fields
                ++ [Print MsgChooseField]
                ++ map (fun p => Print (MsgChoice (fst p) (field_name (snd p)))) (enumerate fields 1)) st in
        match input st1 with
        | (Raise e, st2) => (Raise e, st2)
        | (Return line, st2) =>
            match py_int line with
            | None => (Raise ValueError, st2)
            | Some n =>
                let selected_field_index := (n - 1)%Z in
                match py_index fields selected_field_index with
                | None =>
                    (Return tt, emit [LogException MsgInvalidInput; Print MsgInvalidInput] st2)
                | Some selected_field =>
                    match input st2 with
                    | (Raise e, st3) => (Raise e, st3)
                    | (Return new_value, st3) =>
                        let record' := set_field selected_field new_value record in
                        let st4 := set_records (list_set (records st3) (Z.to_nat index) record') st3 in
                        (Return tt, emit [Print MsgEntryEdited] (save_records st4))
                    end
                end
            end
        end
    end
  else (Return tt, emit [LogError MsgInvalidIndex; Print MsgInvalidIndex] st).

(** [getattr(record, name)]; [None] stands for [AttributeError]. *)
Definition getattr (record : RecordT) (name : pystr) : option attribute :=
  match field_of_name name with
  | Some f => Some (AttrStr (get_field f record))
  | None =>
      if existsb (str_eqb name) method_names then Some AttrObject
      else inherited_attrs name
  end.

Definition hasattr (record : RecordT) (name : pystr) : bool :=
  match getattr record name with
  | Some _ => true
  | None => false
  end.

(** [a.lower()] for an attribute [a]. *)
Definition attr_lower (a : attribute) : result pystr :=
  match a with
  | AttrStr s => Return (lower s)
  | AttrObject => Raise AttributeError
  end.

(** The loop of [search_records] for a query [field=value]; [results] is
    the list built so far. *)
Fixpoint search_field (field value : pystr) (rs results : list RecordT) (st : state)
  : result (list RecordT) * state :=
  match rs with
  | [] => (Return results, st)
  | record :: rest =>
      if negb (hasattr record field) then
        (Return results, emit [Print (MsgNoField field); LogError (MsgNoField field)] st)
      else
        match getattr record field with
        | None => (Raise AttributeError, st)
        | Some a =>
            match attr_lower a with
            | Raise e => (Raise e, st)
            | Return l =>
                if str_eqb l (lower value)
                then search_field field value rest (results ++ [record]) st
                else search_field field value rest results st
            end
        end
  end.

(** [dataclasses.asdict(record).values()]. *)
Definition values (record : RecordT) : list pystr :=
  map (fun f => get_field f record) fields.

(** The loop of [search_records] for a query without ['=']. *)
Fixpoint search_any (query : pystr) (rs results : list RecordT) : list RecordT :=
  match rs with
  | [] => results
  | record :: rest =>
      if existsb (fun value => str_in (lower query) (lower value)) (values record)
      then search_any query rest (results ++ [record])
      else search_any query rest results
  end.

(** [PhoneDirectory.search_records].  [field, value = query.split("=")]
    raises [ValueError] unless the split has exactly two parts. *)
Definition search_records (st : state) (query : pystr) : result (list RecordT) * state :=
  if str_in [eq_sign] (lower query) then
    match split eq_sign query with
    | [field; value] => search_field field value (records st) [] st
    | _ => (Raise ValueError, st)
    end
  else (Return (search_any query (records st) []), st).

End Model.

(** ** Sample data

    Instances of the library functions the model is stated over, and the
    records of the tests. *)

(** Lower-casing of the Latin and Cyrillic capitals, other characters kept. *)
Definition sample_lower_char (c : N) : N :=
  if in_range 65 90 c || in_range 1040 1071 c then (c + 32)%N
  else if in_range 1024 1039 c then (c + 80)%N
  else c.

Definition sample_lower (s : pystr) : pystr := map sample_lower_char s.

(** [int] on a non-empty run of ASCII digits. *)
Definition sample_int (s : pystr) : option Z :=
  match s with
  | [] => None
  | _ =>
      if forallb is_digit s
      then Some (fold_left (fun acc c => (acc * 10 + Z.of_N (c - 48))%Z) s 0%Z)
      else None
  end.

(** Some of the attributes every object of a class has. *)
Definition sample_attrs (name : pystr) : option attribute :=
  if str_eqb name (str "__module__") then Some (AttrStr (str "phone_directory"))
  else if existsb (str_eqb name) [str "__class__"; str "__dict__"; str "__init__"; str "__eq__"]
  then Some AttrObject
  else None.

(** A file represented by the value it encodes. *)
Definition sample_dump (v : pyval) : pyval := v.
Definition sample_load (t : pyval) : result pyval := Return t.

Definition sokolov : RecordT :=
  mkRecord (str "Соколов") (str "Сергей") (str "Анатольевич") (str "СберБанк")
           (str "495-555-6666") (str "916-666-7777").

Definition sokolov_andrey : RecordT :=
  mkRecord (str "Соколов") (str "Андрей") (str "Анатольевич") (str "СберБанк")
           (str "495-555-6666") (str "916-666-7777").

Definition ivanov : RecordT :=
  mkRecord (str "Иванов") (str "Алексей") (str "Владимирович") (str "ООО РосТех")
           (str "495-123-4567") (str "910-555-6789").

Definition petrova : RecordT :=
  mkRecord (str "Петрова") (str "Екатерина") (str "Андреевна") (str "ГазПром")
           (str "499-987-6543") (str "916-777-8899").

(** A record whose last name is ["1"], as in the validation test. *)
Definition bad_entry : pyval :=
  VDict [(str "last_name", VStr (str "1")); (str "first_name", VStr (str "Сергей"));
         (str "middle_name", VStr (str "Анатольевич")); (str "organization", VStr (str "СберБанк"));
         (str "work_phone", VStr (str "495-555-6666")); (str "personal_phone", VStr (str "916-666-7777"))].

(** Fifteen records, as in the display test. *)
Definition fifteen : list RecordT :=
  repeat ivanov 5 ++ repeat petrova 5 ++ repeat sokolov 5.

Definition sample_state (rs : list RecordT) (lines : list pystr) : state pyval :=
  mkState None rs lines [].


(** ** The specification's vocabulary *)

(** An optional character of a class: nothing, or one such character. *)
Definition optional (p : N -> bool) (w : pystr) : Prop :=
  w = [] \/ exists c, w = [c] /\ p c = true.

(** Between [lo] and [hi] digits. *)
Definition digits (lo hi : nat) (w : pystr) : Prop :=
  lo <= length w <= hi /\ forallb is_digit w = true.

(** A phone number as the specification words it: optional ['+'], optional
    ['('], 3 digits, optional [')'], optional separator, 3 digits, optional
    separator, 4 to 6 digits. *)
Definition phone_shape (w : pystr) : Prop :=
  exists plus lparen area rparen sep1 exchange sep2 subscriber,
    w = plus ++ lparen ++ area ++ rparen ++ sep1 ++ exchange ++ sep2 ++ subscriber
    /\ optional (is_char "+") plus
    /\ optional (is_char "(") lparen
    /\ digits 3 3 area
    /\ optional (is_char ")") rparen
    /\ optional is_separator sep1
    /\ digits 3 3 exchange
    /\ optional is_separator sep2
    /\ digits 4 6 subscriber.

(** The elements of a list at the positions [a <= i < b], the bounds clipped
    to the list: the page of the specification, for [a] the page's offset
    and [b] the offset plus the page size. *)
Definition window {A} (l : list A) (a b : Z) : list A :=
  firstn (Z.to_nat (b - Z.max a 0)) (skipn (Z.to_nat (Z.max a 0)) l).

(** How [display_records] prints the records of a page, numbered from
    [first]. *)
Definition print_page (page : list RecordT) (first : Z) : list event :=
  map (fun ir => Print (MsgRecord (fst ir) (snd ir))) (enumerate page first).

(** What the specification says a call of [display_records] prints for the
    list [rs], page size [s] and page number [p]: the records at offset
    [(p-1)*s] through [(p-1)*s+s], then the page number with [total]. *)
Definition page_output (rs : list RecordT) (s p total : Z) : list event :=
  print_page (window rs ((p - 1) * s) ((p - 1) * s + s)) ((p - 1) * s + 1)
  ++ [Print (MsgPage p total)].

(** [total] is the ceiling of [n / s], for [s > 0]. *)
Definition is_ceiling (n s total : Z) : Prop :=
  ((total - 1) * s < n <= total * s)%Z.

(** Some field of the record contains the query, both lower-cased. *)
Definition contains_query (lower : pystr -> pystr) (query : pystr) (r : RecordT) : Prop :=
  exists f : Field, Substring (lower query) (lower (get_field f r)).

(** The field of the record equals the value, both lower-cased. *)
Definition field_equals (lower : pystr -> pystr) (f : Field) (value : pystr) (r : RecordT) : Prop :=
  lower (get_field f r) = lower value.

(** The query [field=value]. *)
Definition field_query (field value : pystr) : pystr := field ++ eq_sign :: value.

(** The code point of ['-']. *)
Definition hyphen : N := 45%N.

(** A run of name characters: one or more letters or whitespace. *)
Definition name_run (w : pystr) : Prop :=
  w <> [] /\ forallb is_name_char w = true.

(** A name as the pattern of [validate_string_fields] reads: a run of name
    characters, optionally followed by a hyphen and a second run. *)
Definition name_shape (w : pystr) : Prop :=
  exists a, name_run a /\ (w = a \/ exists b, name_run b /\ w = a ++ hyphen :: b).

(** An entry of the decoded file is an object. *)
Definition is_object (data : pyval) : Prop := exists kwargs, data = VDict kwargs.

(** ** The command line *)

(** What [parse_arguments] returns: the namespace of the subcommand given,
    with the destinations its parser declares ([command] is [None] when no
    subcommand is given). *)
Inductive Namespace : Type :=
| NoCommand
| DisplayArgs (page records_per_page : Z)
| AddArgs
| EditArgs (index : Z)
| SearchArgs (query : pystr) (page records_per_page : Z).

(** The attributes of the namespace. *)
Definition namespace_attrs (args : Namespace) : list (pystr * pyval) :=
  match args with
  | NoCommand => [(str "command", VNone)]
  | DisplayArgs page records_per_page =>
      [(str "command", VStr (str "display")); (str "page", VInt page);
       (str "records_per_page", VInt records_per_page)]
  | AddArgs => [(str "command", VStr (str "add"))]
  | EditArgs index => [(str "command", VStr (str "edit")); (str "index", VInt index)]
  | SearchArgs query page records_per_page =>
      [(str "command", VStr (str "search")); (str "query", VStr query);
       (str "page", VInt page); (str "records_per_page", VInt records_per_page)]
  end.

(** [args.name]: a missing attribute raises [AttributeError]. *)
Definition args_getattr (args : Namespace) (name : pystr) : result pyval :=
  match dict_get name (namespace_attrs args) with
  | Some v => Return v
  | None => Raise AttributeError
  end.

(** What [main] itself prints and logs. *)
Inductive main_event : Type :=
| LogFailedToCreate (e : exn)    (* log.exception("Failed to create record: {e}") *)
| PrintFailedToCreate (e : exn)  (* print("Failed to create record: {e}") *)
| PrintNoResults.                (* print("No results found.") *)

Section Main.

Variable text : Type.
Variable json_dump : pyval -> text.
Variable json_load : text -> result pyval.
Variable lower : pystr -> pystr.
Variable py_int : pystr -> option Z.
Variable inherited_attrs : pystr -> option attribute.

(** [n] calls of [input], in order. *)
Fixpoint inputs (n : nat) (st : state text) : result (list pystr) * state text :=
  match n with
  | O => (Return [], st)
  | S n' =>
      match input st with
      | (Raise e, st1) => (Raise e, st1)
      | (Return line, st1) =>
          match inputs n' st1 with
          | (Raise e, st2) => (Raise e, st2)
          | (Return lines, st2) => (Return (line :: lines), st2)
          end
      end
  end.

(** [Record(a, b, c, d, e, f)]: the positional arguments are the fields in
    order. *)
Definition positional (lines : list pystr) : list (pystr * pyval) :=
  combine (map field_name fields) (map VStr lines).

(** How pydantic names a positional argument in an error: by its
    position. *)
Definition position_label (f : Field) : pystr :=
  match f with
  | f_last_name => str "0"
  | f_first_name => str "1"
  | f_middle_name => str "2"
  | f_organization => str "3"
  | f_work_phone => str "4"
  | f_personal_phone => str "5"
  end.

(** [Record(a, b, c, d, e, f)] with six positional arguments: they are
    validated as the six fields in order, and a failure is reported under
    the position of its argument. *)
Definition Record_positional (lines : list pystr) : result RecordT :=
  let kwargs := positional lines in
  match flat_map (fun f => match validate_field kwargs f with
                           | inl _ => []
                           | inr e => [(position_label f, e)]
                           end) fields with
  | [] => Return (mkRecord (validated kwargs f_last_name) (validated kwargs f_first_name)
                           (validated kwargs f_middle_name) (validated kwargs f_organization)
                           (validated kwargs f_work_phone) (validated kwargs f_personal_phone))
  | errors => Raise (ValidationError errors)
  end.

(** The [add] branch of [main]. *)
Definition main_add (st : state text) : result unit * state text * list main_event :=
  match inputs 6 st with
  | (Raise e, st1) => (Raise e, st1, [])
  | (Return lines, st1) =>
      match Record_positional lines with
      | Return new_record => (Return tt, add_record json_dump st1 new_record, [])
      | Raise (ValidationError errors) =>
          (Return tt, st1,
           [LogFailedToCreate (ValidationError errors);
            PrintFailedToCreate (ValidationError errors)])
      | Raise e => (Raise e, st1, [])
      end
  end.

(** The [search] branch of [main]: a non-empty result is displayed with the
    default page size and page number. *)
Definition main_search (args : Namespace) (st : state text)
  : result unit * state text * list main_event :=
  match args_getattr args (str "query") with
  | Return (VStr search_query) =>
      match search_records lower inherited_attrs st search_query with
      | (Raise e, st1) => (Raise e, st1, [])
      | (Return [], st1) => (Return tt, st1, [PrintNoResults])
      | (Return (r :: rs), st1) => (display_records st1 (Some (r :: rs)) 5 1, [])
      end
  | Return _ => (Raise TypeError, st, [])
  | Raise e => (Raise e, st, [])
  end.

(** The [display] branch of [main]: the two arguments are read off the
    namespace before the call. *)
Definition main_display (args : Namespace) (st : state text)
  : result unit * state text * list main_event :=
  match args_getattr args (str "page") with
  | Return (VInt page) =>
      match args_getattr args (str "entries_per_page") with
      | Return (VInt entries_per_page) => (display_records st None entries_per_page page, [])
      | Return _ => (Raise TypeError, st, [])
      | Raise e => (Raise e, st, [])
      end
  | Return _ => (Raise TypeError, st, [])
  | Raise e => (Raise e, st, [])
  end.

(** The [edit] branch of [main]. *)
Definition main_edit (args : Namespace) (st : state text)
  : result unit * state text * list main_event :=
  match args_getattr args (str "index") with
  | Return (VInt index) => (edit_record json_dump py_int st (index - 1), [])
  | Return _ => (Raise TypeError, st, [])
  | Raise e => (Raise e, st, [])
  end.

(** [main], given what [parse_arguments] returns.  The directory is built
    first; the third component is what [main] itself prints and logs, which
    comes after everything in [output]. *)
Definition main (args : Namespace) (st : state text)
  : result unit * state text * list main_event :=
  match init json_load st with
  | (Raise e, st0) => (Raise e, st0, [])
  | (Return _, st0) =>
      match args_getattr args (str "command") with
      | Raise e => (Raise e, st0, [])
      | Return (VStr command) =>
          if str_eqb command (str "display") then main_display args st0
          else if str_eqb command (str "add") then main_add st0
          else if str_eqb command (str "edit") then main_edit args st0
          else if str_eqb command (str "search") then main_search args st0
          else (Return tt, st0, [])
      | Return _ => (Return tt, st0, [])
      end
  end.

End Main.

(** The records a run of output shows, in the order shown. *)
Fixpoint shown_records (es : list event) : list RecordT :=
  match es with
  | [] => []
  | Print (MsgRecord _ r) :: es' => r :: shown_records es'
  | _ :: es' => shown_records es'
  end.

(** The page numbers [1 .. total]. *)
Definition page_numbers (total : Z) : list Z :=
  map Z.of_nat (seq 1 (Z.to_nat total)).

(** A program start: the file holds the records [rs], none is loaded yet,
    and [lines] wait on standard input; and the state once they are loaded. *)
Definition stored (rs : list RecordT) (lines : list pystr) : state pyval :=
  mkState (Some (records_data rs)) [] lines [].

Definition loaded (rs : list RecordT) (lines : list pystr) : state pyval :=
  mkState (Some (records_data rs)) rs lines [].

(** The six lines typed for a record. *)
Definition lines_of (r : RecordT) : list pystr :=
  [last_name r; first_name r; middle_name r; organization r; work_phone r; personal_phone r].

(** * Properties *)

Unset Implicit Arguments.

(** ** Strings *)

Lemma str_eqb_eq (a b : pystr) : str_eqb a b = true <-> a = b.
Proof.
  revert b; induction a as [|x a IH]; intros [|y b]; simpl; split; intro H;
    try reflexivity; try discriminate.
  - apply andb_true_iff in H as [Hx Hab].
    apply N.eqb_eq in Hx. apply IH in Hab. now subst.
  - injection H as -> ->. rewrite N.eqb_refl. now apply IH.
Qed.

Lemma startswith_spec (p s : pystr) :
  startswith p s = true <-> exists post, s = p ++ post.
Proof.
  revert s; induction p as [|x p IH]; intros s; simpl.
  - split; [intros _; now exists s | reflexivity].
  - destruct s as [|y s].
    + split; [discriminate | intros [post H]; discriminate].
    + rewrite andb_true_iff, N.eqb_eq, IH. split.
      * intros [-> [post ->]]. now exists post.
      * intros [post H]. injection H as -> ->. split; [reflexivity | now exists post].
Qed.

Lemma str_in_spec (sub s : pystr) : str_in sub s = true <-> Substring sub s.
Proof.
  unfold Substring. induction s as [|c s IH].
  - simpl. rewrite orb_false_r, startswith_spec. split.
    + intros [post H]. now exists [], post.
    + intros [pre [post H]]. destruct pre; simpl in H.
      * now exists post.
      * discriminate.
  - cbn [str_in]. rewrite orb_true_iff, startswith_spec, IH. split.
    + intros [[post H] | [pre [post H]]].
      * now exists [], post.
      * exists (c :: pre), post. simpl. now rewrite H.
    + intros [pre [post H]]. destruct pre as [|c' pre]; simpl in H.
      * left. now exists post.
      * right. injection H as _ H. now exists pre, post.
Qed.

(** A one-character substring test is a membership test. *)
Lemma str_in_char (c : N) (s : pystr) : str_in [c] s = true <-> In c s.
Proof.
  rewrite str_in_spec. split.
  - intros [pre [post ->]]. apply in_or_app. right. now left.
  - intro H. apply in_split in H as [pre [post ->]]. now exists pre, post.
Qed.

(** The split has one part more than the string has separators. *)
Lemma split_length (sep : N) (s : pystr) :
  length (split sep s) = S (count_occ N.eq_dec s sep).
Proof.
  induction s as [|c s IH]; simpl; [reflexivity|].
  destruct (N.eqb_spec c sep) as [->|Hne].
  - destruct (N.eq_dec sep sep); [|contradiction]. simpl. now rewrite IH.
  - destruct (N.eq_dec c sep); [contradiction|].
    destruct (split sep s) eqn:E; simpl in *; [discriminate | exact IH].
Qed.

Lemma split_no_sep (sep : N) (s : pystr) : ~ In sep s -> split sep s = [s].
Proof.
  induction s as [|c s IH]; simpl; intro H; [reflexivity|].
  destruct (N.eqb_spec c sep) as [->|Hne].
  - exfalso. apply H. now left.
  - rewrite IH; [reflexivity | intro Hin; apply H; now right].
Qed.

Lemma split_app (sep : N) (a b : pystr) :
  ~ In sep a -> split sep (a ++ sep :: b) = a :: split sep b.
Proof.
  induction a as [|c a IH]; simpl; intro H.
  - now rewrite N.eqb_refl.
  - destruct (N.eqb_spec c sep) as [->|Hne].
    + exfalso. apply H. now left.
    + rewrite IH; [reflexivity | intro Hin; apply H; now right].
Qed.

(** A query [field=value] with no other ['='] splits into its two parts. *)
Lemma split_field_value (field value : pystr) :
  ~ In eq_sign field -> ~ In eq_sign value ->
  split eq_sign (field ++ eq_sign :: value) = [field; value].
Proof.
  intros Hf Hv. rewrite split_app by exact Hf. now rewrite split_no_sep.
Qed.

(** ** Regular expressions: the matcher decides the language *)

(** The language of each construct the patterns use. *)

Lemma Matches_Cat_iff (r q : regex) (w : pystr) :
  Matches (Cat r q) w <-> exists u v, w = u ++ v /\ Matches r u /\ Matches q v.
Proof.
  split.
  - intro H. inversion H; subst. eauto.
  - intros (u & v & -> & Hu & Hv). now constructor.
Qed.

Lemma Matches_Cls_iff (p : N -> bool) (w : pystr) :
  Matches (Cls p) w <-> exists c, w = [c] /\ p c = true.
Proof.
  split.
  - intro H. inversion H; subst. eauto.
  - intros (c & -> & Hc). now constructor.
Qed.

Lemma Matches_Eps_iff (w : pystr) : Matches Eps w <-> w = [].
Proof.
  split.
  - intro H. now inversion H.
  - intros ->. constructor.
Qed.

Lemma nullable_spec (r : regex) : nullable r = true <-> Matches r [].
Proof.
  induction r as [| |p|r IHr s IHs|r IHr s IHs|r IHr]; simpl.
  - split; [discriminate | intro H; inversion H].
  - split; [intros _; constructor | reflexivity].
  - split; [discriminate | intro H; inversion H].
  - rewrite andb_true_iff, IHr, IHs. split.
    + intros [Hr Hs]. change (@nil N) with (@nil N ++ []). now constructor.
    + intro H. apply Matches_Cat_iff in H as (u & v & E & Hu & Hv).
      symmetry in E. apply app_eq_nil in E as [-> ->]. now split.
  - rewrite orb_true_iff, IHr, IHs. split.
    + intros [H|H]; [now apply MAltL | now apply MAltR].
    + intro H. inversion H; subst; [now left | now right].
  - split; [intros _; constructor | reflexivity].
Qed.

(** A non-empty word of [r*] starts with a non-empty word of [r]. *)
Lemma Matches_star_cons (r : regex) (c : N) (s : pystr) :
  Matches (Star r) (c :: s) ->
  exists u v, s = u ++ v /\ Matches r (c :: u) /\ Matches (Star r) v.
Proof.
  intro H. remember (Star r) as q eqn:Eq. remember (c :: s) as w eqn:Ew.
  revert s Ew. induction H as [| | | | | |r' u v Hu _ Hv IHv]; intros s0 Ew;
    try discriminate.
  injection Eq as ->. destruct u as [|c' u]; simpl in Ew.
  - now apply IHv.
  - injection Ew as -> <-. now exists u, v.
Qed.

Lemma deriv_spec (c : N) (r : regex) (s : pystr) :
  Matches (deriv c r) s <-> Matches r (c :: s).
Proof.
  revert s. induction r as [| |p|r IHr q IHq|r IHr q IHq|r IHr]; intro s; simpl.
  - split; intro H; inversion H.
  - split; intro H; inversion H.
  - destruct (p c) eqn:Hp; split; intro H; inversion H; subst.
    + now constructor.
    + constructor.
    + congruence.
  - assert (Hcat : Matches (Cat (deriv c r) q) s <->
                   exists u v, s = u ++ v /\ Matches r (c :: u) /\ Matches q v).
    { split.
      - intro H. apply Matches_Cat_iff in H as (u & v & -> & Hu & Hv).
        exists u, v. split; [reflexivity|]. split; [now apply IHr | exact Hv].
      - intros (u & v & -> & Hu & Hv). constructor; [now apply IHr | exact Hv]. }
    assert (Hsplit : Matches (Cat r q) (c :: s) <->
                     (exists u v, s = u ++ v /\ Matches r (c :: u) /\ Matches q v)
                     \/ (Matches r [] /\ Matches q (c :: s))).
    { split.
      - intro H. apply Matches_Cat_iff in H as (u & v & E & Hu & Hv).
        destruct u as [|c' u]; simpl in E.
        + right. subst v. now split.
        + injection E as <- ->. left. now exists u, v.
      - intros [(u & v & -> & Hu & Hv) | [Hr Hq]].
        + change (c :: u ++ v) with ((c :: u) ++ v). now constructor.
        + change (c :: s) with ([] ++ c :: s). now constructor. }
    rewrite Hsplit. destruct (nullable r) eqn:Hn.
    + split.
      * intro H. inversion H; subst.
        -- left. now apply Hcat.
        -- right. split; [now apply nullable_spec | now apply IHq].
      * intros [H | [_ H]]; [apply MAltL; now apply Hcat | apply MAltR; now apply IHq].
    + rewrite Hcat. split; [now left|].
      intros [H | [H _]]; [exact H|].
      apply nullable_spec in H. congruence.
  - split; intro H; inversion H; subst.
    + apply MAltL. now apply IHr.
    + apply MAltR. now apply IHq.
    + apply MAltL. now apply IHr.
    + apply MAltR. now apply IHq.
  - split.
    + intro H. apply Matches_Cat_iff in H as (u & v & -> & Hu & Hv).
      change (c :: u ++ v) with ((c :: u) ++ v). constructor; [now apply IHr | exact Hv].
    + intro H. apply Matches_star_cons in H as (u & v & -> & Hu & Hv).
      constructor; [now apply IHr | exact Hv].
Qed.

Lemma fullmatch_spec (r : regex) (s : pystr) : fullmatch r s = true <-> Matches r s.
Proof.
  revert r. induction s as [|c s IH]; intro r; simpl.
  - apply nullable_spec.
  - rewrite IH. apply deriv_spec.
Qed.

Lemma Matches_Opt_iff (r : regex) (w : pystr) :
  Matches (Opt r) w <-> w = [] \/ Matches r w.
Proof.
  unfold Opt. split.
  - intro H. inversion H; subst; [now right | left; now apply Matches_Eps_iff].
  - intros [-> | H]; [apply MAltR; constructor | now apply MAltL].
Qed.

Lemma Matches_Rep_Cls (p : N -> bool) (n : nat) (w : pystr) :
  Matches (Rep n (Cls p)) w <-> length w = n /\ forallb p w = true.
Proof.
  revert w. induction n as [|n IH]; intro w; simpl.
  - rewrite Matches_Eps_iff. split.
    + intros ->. now split.
    + intros [H _]. now apply length_zero_iff_nil.
  - rewrite Matches_Cat_iff. split.
    + intros (u & v & -> & Hu & Hv). apply Matches_Cls_iff in Hu as (c & -> & Hc).
      apply IH in Hv as [Hl Hf]. simpl. rewrite Hc, Hf, Hl. now split.
    + intros [Hl Hf]. destruct w as [|c w]; [discriminate|].
      simpl in Hl, Hf. apply andb_true_iff in Hf as [Hc Hf]. injection Hl as Hl.
      exists [c], w. split; [reflexivity|]. split; [now constructor | now apply IH].
Qed.

Lemma Matches_UpTo_Cls (p : N -> bool) (k : nat) (w : pystr) :
  Matches (UpTo k (Cls p)) w <-> length w <= k /\ forallb p w = true.
Proof.
  revert w. induction k as [|k IH]; intro w; simpl.
  - rewrite Matches_Eps_iff. split.
    + intros ->. now split.
    + intros [H _]. destruct w; [reflexivity | simpl in H; lia].
  - rewrite Matches_Opt_iff, Matches_Cat_iff. split.
    + intros [-> | (u & v & -> & Hu & Hv)].
      * simpl. split; [lia | reflexivity].
      * apply Matches_Cls_iff in Hu as (c & -> & Hc). apply IH in Hv as [Hl Hf].
        simpl. rewrite Hc, Hf. split; [lia | reflexivity].
    + intros [Hl Hf]. destruct w as [|c w]; [now left | right].
      simpl in Hl, Hf. apply andb_true_iff in Hf as [Hc Hf].
      exists [c], w. split; [reflexivity|].
      split; [now constructor | apply IH; split; [lia | exact Hf]].
Qed.

Lemma Matches_RepRange_Cls (p : N -> bool) (lo k : nat) (w : pystr) :
  Matches (RepRange lo k (Cls p)) w <->
  lo <= length w <= lo + k /\ forallb p w = true.
Proof.
  unfold RepRange. rewrite Matches_Cat_iff. split.
  - intros (u & v & -> & Hu & Hv).
    apply Matches_Rep_Cls in Hu as [Hlu Hfu]. apply Matches_UpTo_Cls in Hv as [Hlv Hfv].
    rewrite length_app, forallb_app, Hfu, Hfv. split; [lia | reflexivity].
  - intros [Hl Hf]. exists (firstn lo w), (skipn lo w).
    rewrite <- (firstn_skipn lo w) in Hf. rewrite forallb_app in Hf.
    apply andb_true_iff in Hf as [Hf1 Hf2].
    split; [now rewrite firstn_skipn|]. split.
    + apply Matches_Rep_Cls. split; [rewrite length_firstn; lia | exact Hf1].
    + apply Matches_UpTo_Cls. split; [rewrite length_skipn; lia | exact Hf2].
Qed.

(** ** Phone validation *)

Lemma Matches_Opt_Cls (p : N -> bool) (w : pystr) :
  Matches (Opt (Cls p)) w <-> optional p w.
Proof.
  unfold optional. now rewrite Matches_Opt_iff, Matches_Cls_iff.
Qed.

Lemma Matches_digits (n k : nat) (w : pystr) :
  Matches (RepRange n k (Cls is_digit)) w <-> digits n (n + k) w.
Proof. apply Matches_RepRange_Cls. Qed.

Lemma Matches_three_digits (w : pystr) :
  Matches (Rep 3 (Cls is_digit)) w <-> digits 3 3 w.
Proof.
  rewrite Matches_Rep_Cls. unfold digits. split; intros [Hl Hf]; (split; [lia | exact Hf]).
Qed.

(** The language of the phone pattern is the shape the specification words. *)
Lemma phone_pattern_spec (w : pystr) : Matches phone_pattern w <-> phone_shape w.
Proof.
  unfold phone_pattern, phone_shape. split.
  - intro H.
    apply Matches_Cat_iff in H as (plus & w1 & -> & Hplus & H).
    apply Matches_Cat_iff in H as (lparen & w2 & -> & Hlparen & H).
    apply Matches_Cat_iff in H as (area & w3 & -> & Harea & H).
    apply Matches_Cat_iff in H as (rparen & w4 & -> & Hrparen & H).
    apply Matches_Cat_iff in H as (sep1 & w5 & -> & Hsep1 & H).
    apply Matches_Cat_iff in H as (exchange & w6 & -> & Hexchange & H).
    apply Matches_Cat_iff in H as (sep2 & subscriber & -> & Hsep2 & Hsub).
    exists plus, lparen, area, rparen, sep1, exchange, sep2, subscriber.
    split; [reflexivity|].
    repeat split;
      first [ now apply Matches_Opt_Cls | now apply Matches_three_digits
            | now apply (Matches_digits 4 2) ].
  - intros (plus & lparen & area & rparen & sep1 & exchange & sep2 & subscriber
            & -> & Hplus & Hlparen & Harea & Hrparen & Hsep1 & Hexchange & Hsep2 & Hsub).
    repeat (apply MCat;
            [ first [ now apply Matches_Opt_Cls | now apply Matches_three_digits ] | ]).
    now apply (Matches_digits 4 2).
Qed.

(** What [re.match] answers for a pattern [^body$]. *)
Lemma re_match_anchored_spec (body : regex) (s : pystr) :
  re_match_anchored body s = true <->
  exists p, Matches body p /\ (s = p \/ s = p ++ [newline]).
Proof.
  unfold re_match_anchored. rewrite fullmatch_spec, Matches_Cat_iff. split.
  - intros (u & v & -> & Hu & Hv). exists u. split; [exact Hu|].
    apply Matches_Opt_Cls in Hv as [-> | (c & -> & Hc)].
    + left. now rewrite app_nil_r.
    + right. apply N.eqb_eq in Hc. now subst c.
  - intros (p & Hp & [-> | ->]).
    + exists p, []. rewrite app_nil_r. split; [reflexivity|]. split; [exact Hp|].
      apply Matches_Opt_Cls. now left.
    + exists p, [newline]. split; [reflexivity|]. split; [exact Hp|].
      apply Matches_Opt_Cls. right. exists newline. split; [reflexivity | apply N.eqb_refl].
Qed.

Lemma validate_phone_Return (s : pystr) :
  validate_phone s = Return s <-> re_match_anchored phone_pattern s = true.
Proof.
  unfold validate_phone. destruct (re_match_anchored phone_pattern s); simpl;
    split; intro H; try reflexivity; discriminate.
Qed.

(** C4, as amended: the phone pattern is anchored at both ends.
    [validate_phone] accepts a string exactly when the whole string, or the
    whole string without one final newline, has the shape of a phone number
    (optional ['+'], optional ['('], 3 digits, optional [')'], optional
    separator, 3 digits, optional separator, 4 to 6 digits); a phone number
    followed by any other trailing characters is refused. *)
Theorem validate_phone_anchored_both_ends (s : pystr) :
  validate_phone s = Return s <->
  exists p, phone_shape p /\ (s = p \/ s = p ++ [newline]).
Proof.
  rewrite validate_phone_Return, re_match_anchored_spec. split.
  - intros (p & Hp & Hs). exists p. split; [now apply phone_pattern_spec | exact Hs].
  - intros (p & Hp & Hs). exists p. split; [now apply phone_pattern_spec | exact Hs].
Qed.

(** C4, as stated, fails: ["495-555-6666"] has the shape of a phone number,
    and ["495-555-6666abc"], of which it is a prefix, is refused. *)
Lemma validate_phone_refuses_trailing_characters :
  ~ (forall p rest : pystr,
        phone_shape p -> validate_phone (p ++ rest) = Return (p ++ rest)).
Proof.
  intro H. specialize (H (str "495-555-6666") (str "abc")).
  assert (Hp : phone_shape (str "495-555-6666")).
  { apply phone_pattern_spec, fullmatch_spec. vm_compute. reflexivity. }
  apply H in Hp. vm_compute in Hp. discriminate.
Qed.

(** ** Construction of a record *)

Lemma field_validator_returns_argument (f : Field) (s v : pystr) :
  field_validator f s = Return v -> v = s.
Proof.
  destruct f; simpl; unfold validate_string_fields, validate_phone;
    match goal with |- context [negb ?b] => destruct b end; simpl; congruence.
Qed.

Lemma dict_get_asdict (f : Field) (r : RecordT) :
  dict_get (field_name f) (asdict r) = Some (VStr (get_field f r)).
Proof. destruct f; reflexivity. Qed.

Lemma record_valid_field (r : RecordT) (f : Field) :
  record_valid r = true -> field_validator f (get_field f r) = Return (get_field f r).
Proof.
  unfold record_valid. rewrite forallb_forall. intro H.
  assert (Hin : In f fields) by (destruct f; simpl; tauto).
  specialize (H f Hin). destruct (field_validator f (get_field f r)) as [v|e] eqn:E.
  - apply field_validator_returns_argument in E. now subst.
  - discriminate.
Qed.

Lemma validate_field_asdict (r : RecordT) (f : Field) :
  record_valid r = true -> validate_field (asdict r) f = inl (get_field f r).
Proof.
  intro H. unfold validate_field.
  now rewrite dict_get_asdict, (record_valid_field _ f H).
Qed.

(** Constructing a record again from the fields of a valid one gives it
    back. *)
Lemma Record_init_asdict (r : RecordT) :
  record_valid r = true -> Record_init (asdict r) = Return r.
Proof.
  intro H. unfold Record_init.
  change (dict_get self_parameter (asdict r)) with (@None pyval). cbv iota.
  unfold field_errors, validated, fields. simpl flat_map.
  pose proof (fun f => validate_field_asdict r f H) as Hf.
  rewrite !Hf. simpl. now destruct r.
Qed.

Lemma validate_field_inl (kwargs : list (pystr * pyval)) (f : Field) (v : pystr) :
  validate_field kwargs f = inl v -> field_validator f v = Return v.
Proof.
  unfold validate_field. destruct (dict_get (field_name f) kwargs) as [[| | | |s| |]|];
    try discriminate.
  destruct (field_validator f s) as [v'|e] eqn:E.
  - intro H. injection H as <-.
    pose proof (field_validator_returns_argument _ _ _ E) as ->. exact E.
  - destruct e; discriminate.
Qed.

(** Construction validates: a record that [Record] returns satisfies the
    pattern of every field. *)
Lemma Record_init_valid (kwargs : list (pystr * pyval)) (r : RecordT) :
  Record_init kwargs = Return r -> record_valid r = true.
Proof.
  unfold Record_init. destruct (dict_get self_parameter kwargs); [discriminate|].
  unfold field_errors, validated, fields. simpl flat_map.
  destruct (validate_field kwargs f_last_name) as [v1|] eqn:E1; [|discriminate].
  destruct (validate_field kwargs f_first_name) as [v2|] eqn:E2; [|discriminate].
  destruct (validate_field kwargs f_middle_name) as [v3|] eqn:E3; [|discriminate].
  destruct (validate_field kwargs f_organization) as [v4|] eqn:E4; [|discriminate].
  destruct (validate_field kwargs f_work_phone) as [v5|] eqn:E5; [|discriminate].
  destruct (validate_field kwargs f_personal_phone) as [v6|] eqn:E6; [|discriminate].
  simpl. intro H. injection H as <-.
  apply validate_field_inl in E1, E2, E3, E4, E5, E6.
  unfold record_valid, fields. cbn [forallb get_field last_name first_name middle_name
    organization work_phone personal_phone].
  now rewrite E1, E2, E3, E4, E5, E6.
Qed.


(** ** Persistence *)

Section Persistence.

Variable text : Type.
Variable json_dump : pyval -> text.
Variable json_load : text -> result pyval.

(** [json.load] reads back what [json.dump] wrote for a list of records. *)
Hypothesis json_load_dump :
  forall rs, json_load (json_dump (records_data rs)) = Return (records_data rs).

Lemma build_records_asdict (rs : list RecordT) :
  Forall (fun r => record_valid r = true) rs ->
  build_records (map (fun record => VDict (asdict record)) rs) = Return rs.
Proof.
  induction 1 as [|r rs Hr _ IH]; simpl; [reflexivity|].
  now rewrite (Record_init_asdict _ Hr), IH.
Qed.

(** C8: for a directory of valid records, [load_records] in any state whose
    file is the one [save_records] wrote (a directory object made later,
    whatever records it holds) returns the records that were saved, in their
    order and with their six values; it logs nothing and changes nothing. *)
Theorem save_then_load_restores (st st2 : state text) :
  Forall (fun r => record_valid r = true) (records st) ->
  file st2 = file (save_records json_dump st) ->
  load_records json_load st2 = (Return (records st), st2).
Proof.
  intros Hvalid Hfile. unfold load_records, read_records. rewrite Hfile.
  unfold save_records. cbn [file]. rewrite json_load_dump. simpl py_iter. cbv iota beta.
  now rewrite (build_records_asdict _ Hvalid).
Qed.

(** The comprehension stops at the first entry that does not construct. *)
Lemma build_records_stops (good rest : list pyval) (bad : pyval) (e : exn) :
  Forall (fun data => exists r, Record_of data = Return r) good ->
  Record_of bad = Raise e ->
  build_records (good ++ bad :: rest) = Raise e.
Proof.
  intros Hgood Hbad. induction Hgood as [|data good [r Hr] _ IH]; cbn [app build_records].
  - now rewrite Hbad.
  - now rewrite Hr, IH.
Qed.

(** C5, as amended: when the file decodes to a list whose first entry that
    is not a valid record is a record failing validation, [load_records]
    logs that validation error and returns the empty list: the valid records
    before it and whatever follows it are dropped with it. *)
Theorem load_records_all_or_nothing (st : state text) (t : text)
    (good rest : list pyval) (bad : pyval) (errors : list (pystr * field_error)) :
  file st = Some t ->
  json_load t = Return (VList (good ++ bad :: rest)) ->
  Forall (fun data => exists r, Record_of data = Return r) good ->
  Record_of bad = Raise (ValidationError errors) ->
  load_records json_load st
  = (Return [], emit [LogError (MsgValidationError (ValidationError errors))] st).
Proof.
  intros Hfile Hload Hgood Hbad. unfold load_records, read_records.
  rewrite Hfile, Hload. simpl py_iter. cbv iota beta.
  now rewrite (build_records_stops good rest bad _ Hgood Hbad).
Qed.

End Persistence.

(** ** Pagination *)

Lemma underflow_bound_pos : (0 < underflow_bound)%Z.
Proof. reflexivity. Qed.

Lemma ceil_div_is_ceiling (n s : Z) :
  (0 < s < underflow_bound)%Z -> is_ceiling n s (ceil_div n s).
Proof.
  intros [Hs Hbound]. unfold is_ceiling, ceil_div.
  destruct (Z.ltb_spec 0 n) as [Hn|Hn]; cbn [andb].
  - destruct (Z.leb_spec (n * underflow_bound) s) as [Hu|_]; [nia|].
    pose proof (Z.div_mod (- n) s ltac:(lia)) as Hdm.
    pose proof (Z.mod_pos_bound (- n) s Hs) as Hb.
    nia.
  - pose proof (Z.div_mod (- n) s ltac:(lia)) as Hdm.
    pose proof (Z.mod_pos_bound (- n) s Hs) as Hb.
    nia.
Qed.

(** From a page offset that is not negative, Python's slice is the window. *)
Lemma py_slice_window {A} (l : list A) (a s : Z) :
  (0 <= a)%Z -> (0 < s)%Z -> py_slice l a (a + s) = window l a (a + s).
Proof.
  intros Ha Hs. unfold py_slice, window, slice_bound.
  destruct (Z.ltb_spec a 0) as [?|_]; [lia|].
  destruct (Z.ltb_spec (a + s) 0) as [?|_]; [lia|].
  rewrite (Z.max_l a 0) by lia.
  replace (a + s - a)%Z with s by lia.
  set (n := Z.of_nat (length l)).
  destruct (Z.le_gt_cases n a) as [Hge|Hlt].
  - rewrite (Z.min_r a n), (Z.min_r (a + s) n) by lia.
    rewrite !skipn_all2 by (subst n; lia). now rewrite !firstn_nil.
  - rewrite (Z.min_l a n) by lia.
    destruct (Z.le_gt_cases (a + s) n) as [Hfit|Hclip].
    + rewrite (Z.min_l (a + s) n) by lia. f_equal. lia.
    + rewrite (Z.min_r (a + s) n) by lia.
      rewrite !firstn_all2; [reflexivity | |]; rewrite length_skipn; subst n; lia.
Qed.

(** Page 0 is empty, in the code and in the specification. *)
Lemma py_slice_page_zero {A} (l : list A) (s : Z) :
  (0 < s)%Z -> py_slice l (- s) (- s + s) = window l (- s) (- s + s).
Proof.
  intro Hs. unfold py_slice, window, slice_bound.
  replace (- s + s)%Z with 0%Z by lia.
  destruct (Z.ltb_spec (- s) 0) as [_|?]; [|lia].
  change (0 <? 0)%Z with false. cbv iota.
  set (n := Z.of_nat (length l)).
  assert (E : Z.to_nat (Z.min 0 n - Z.max (- s + n) 0) = O) by lia.
  rewrite E, (Z.max_r (- s) 0) by lia. reflexivity.
Qed.

(** The window holds the elements at the positions [max a 0 <= j < b], in
    order. *)
Lemma window_nth_error {A} (l : list A) (a b : Z) (i : nat) :
  nth_error (window l a b) i
  = if (Z.max a 0 + Z.of_nat i <? b)%Z
    then nth_error l (Z.to_nat (Z.max a 0) + i)
    else None.
Proof.
  unfold window. rewrite nth_error_firstn, nth_error_skipn.
  destruct (Nat.ltb_spec i (Z.to_nat (b - Z.max a 0)));
    destruct (Z.ltb_spec (Z.max a 0 + Z.of_nat i) b); try reflexivity; lia.
Qed.

Lemma window_beyond {A} (l : list A) (a b : Z) :
  (b <= 0 \/ Z.of_nat (length l) <= a)%Z -> window l a b = [].
Proof.
  unfold window. intros [Hb|Ha].
  - replace (Z.to_nat (b - Z.max a 0)) with O by lia. reflexivity.
  - rewrite skipn_all2 by lia. apply firstn_nil.
Qed.

Section Display.

Variable text : Type.

(** C9, as amended: for the list that is displayed (the argument when it
    is not empty, the directory's own list otherwise) of length [n], a page
    size [0 < s < 2^1075] and a page number [p >= 0], [display_records]
    prints the records at offset [(p-1)*s] through [(p-1)*s+s] clipped to
    [n], numbered from [(p-1)*s+1], and then the page number with the
    ceiling of [n/s]; page 0 and a page past the end are empty, and nothing
    is raised. *)
Theorem display_records_page (st : state text) (rs : option (list RecordT)) (s p : Z) :
  (0 < s < underflow_bound)%Z -> (0 <= p)%Z ->
  exists total,
    display_records st rs s p
    = (Return tt, emit (page_output (py_or rs (records st)) s p total) st)
    /\ is_ceiling (Z.of_nat (length (py_or rs (records st)))) s total
    /\ (p = 0%Z \/ (Z.of_nat (length (py_or rs (records st))) <= (p - 1) * s)%Z ->
        window (py_or rs (records st)) ((p - 1) * s) ((p - 1) * s + s) = []).
Proof.
  intros [Hs Hbound] Hp. exists (ceil_div (Z.of_nat (length (py_or rs (records st)))) s).
  split; [|split].
  - unfold display_records, page_output, print_page.
    destruct (Z.eqb_spec s 0) as [?|_]; [lia|].
    assert (Hslice : py_slice (py_or rs (records st)) ((p - 1) * s) ((p - 1) * s + s)
                     = window (py_or rs (records st)) ((p - 1) * s) ((p - 1) * s + s)).
    { destruct (Z.eq_dec p 0) as [->|Hne].
      - replace ((0 - 1) * s)%Z with (- s)%Z by lia. now apply py_slice_page_zero.
      - apply py_slice_window; nia. }
    rewrite Hslice. unfold emit. cbn [file records stdin output].
    now rewrite <- app_assoc.
  - apply ceil_div_is_ceiling. now split.
  - intros [-> | Hfar]; apply window_beyond; [left; lia | right; exact Hfar].
Qed.


End Display.

(** ** Search *)

Lemma field_of_name_field_name (f : Field) : field_of_name (field_name f) = Some f.
Proof. destruct f; reflexivity. Qed.

Lemma field_name_no_eq_sign (f : Field) : ~ In eq_sign (field_name f).
Proof.
  intro H. apply str_in_char in H. destruct f; vm_compute in H; discriminate.
Qed.

Lemma in_fields (f : Field) : In f fields.
Proof. destruct f; simpl; tauto. Qed.

Section Search.

Variable text : Type.
Variable lower : pystr -> pystr.
Variable inherited_attrs : pystr -> option attribute.

(** Lower-casing neither removes nor introduces ['=']. *)
Hypothesis lower_eq_sign : forall s, In eq_sign (lower s) <-> In eq_sign s.

Lemma query_has_eq_sign (query : pystr) :
  str_in [eq_sign] (lower query) = true <-> In eq_sign query.
Proof. now rewrite str_in_char, lower_eq_sign. Qed.

Lemma search_any_filter (query : pystr) (rs results : list RecordT) :
  search_any lower query rs results
  = results ++ filter (fun r => existsb (fun value => str_in (lower query) (lower value))
                                        (values r)) rs.
Proof.
  revert results. induction rs as [|r rs IH]; intro results; simpl.
  - now rewrite app_nil_r.
  - match goal with |- context [if ?b then _ else _] => destruct b end;
      rewrite IH; [|reflexivity].
    now rewrite <- app_assoc.
Qed.

Lemma any_value_contains (query : pystr) (r : RecordT) :
  existsb (fun value => str_in (lower query) (lower value)) (values r) = true
  <-> contains_query lower query r.
Proof.
  unfold contains_query, values. rewrite existsb_exists. split.
  - intros (value & Hin & Hsub). apply in_map_iff in Hin as (f & <- & _).
    exists f. now apply str_in_spec.
  - intros (f & Hsub). exists (get_field f r). split.
    + apply in_map_iff. exists f. split; [reflexivity | apply in_fields].
    + now apply str_in_spec.
Qed.

(** C6: for a query without ['='], [search_records] returns the records of
    the directory, in its order, for which the lower-cased query is a
    substring of the lower-cased value of some field; it prints and logs
    nothing. *)
Theorem search_records_substring (st : state text) (query : pystr) :
  ~ In eq_sign query ->
  exists hit : RecordT -> bool,
    (forall r, hit r = true <-> contains_query lower query r)
    /\ search_records lower inherited_attrs st query = (Return (filter hit (records st)), st).
Proof.
  intro Hno.
  exists (fun r => existsb (fun value => str_in (lower query) (lower value)) (values r)).
  split; [intro r; apply any_value_contains|].
  unfold search_records.
  destruct (str_in [eq_sign] (lower query)) eqn:E.
  - apply query_has_eq_sign in E. contradiction.
  - now rewrite search_any_filter.
Qed.

Lemma getattr_field (r : RecordT) (f : Field) :
  getattr inherited_attrs r (field_name f) = Some (AttrStr (get_field f r)).
Proof. unfold getattr. now rewrite field_of_name_field_name. Qed.

Lemma search_field_filter (st : state text) (f : Field) (value : pystr)
    (rs results : list RecordT) :
  search_field lower inherited_attrs (field_name f) value rs results st
  = (Return (results ++ filter (fun r => str_eqb (lower (get_field f r)) (lower value)) rs), st).
Proof.
  revert results. induction rs as [|r rs IH]; intro results; simpl.
  - now rewrite app_nil_r.
  - unfold hasattr. rewrite getattr_field. simpl.
    destruct (str_eqb (lower (get_field f r)) (lower value)); rewrite IH; [|reflexivity].
    now rewrite <- app_assoc.
Qed.

(** The part of C2 the code keeps: for a query [field=value] whose field is
    one of the six and whose value holds no ['='], [search_records] returns
    the records whose field equals the value, both lower-cased, in the
    order of the directory. *)
Lemma search_records_field_equals (st : state text) (f : Field) (value : pystr) :
  ~ In eq_sign value ->
  exists hit : RecordT -> bool,
    (forall r, hit r = true <-> field_equals lower f value r)
    /\ search_records lower inherited_attrs st (field_query (field_name f) value)
       = (Return (filter hit (records st)), st).
Proof.
  intro Hv. exists (fun r => str_eqb (lower (get_field f r)) (lower value)).
  split; [intro r; apply str_eqb_eq|].
  unfold search_records, field_query.
  assert (E : str_in [eq_sign] (lower (field_name f ++ eq_sign :: value)) = true).
  { apply query_has_eq_sign, in_or_app. right. now left. }
  rewrite E, split_field_value by (apply field_name_no_eq_sign || exact Hv).
  apply search_field_filter.
Qed.

(** C3 on the code: a query [field=value] whose value holds another ['=']
    is not split at the first ['=']; unpacking the split raises
    [ValueError]. *)
Theorem search_records_second_eq_sign (st : state text) (field value : pystr) :
  ~ In eq_sign field -> In eq_sign value ->
  search_records lower inherited_attrs st (field_query field value) = (Raise ValueError, st).
Proof.
  intros Hf Hv. unfold search_records, field_query.
  assert (E : str_in [eq_sign] (lower (field ++ eq_sign :: value)) = true).
  { apply query_has_eq_sign, in_or_app. right. now left. }
  rewrite E, split_app by exact Hf.
  pose proof (split_length eq_sign value) as Hlen.
  apply (count_occ_In N.eq_dec) in Hv.
  destruct (split eq_sign value) as [|a [|b parts]]; simpl in Hlen; try lia.
  reflexivity.
Qed.

(** C7, as amended: for a query [field=value] with a single ['='] whose
    field names no attribute of a record (none of the six fields, neither
    validator, nothing inherited), [search_records] returns the empty list
    at the first record, whatever the later records hold; it prints and
    logs that the field does not exist when the directory has a record, and
    prints and logs nothing when the directory is empty. *)
Theorem search_records_unknown_field (st : state text) (field value : pystr) :
  ~ In eq_sign field -> ~ In eq_sign value ->
  field_of_name field = None ->
  existsb (str_eqb field) method_names = false ->
  inherited_attrs field = None ->
  search_records lower inherited_attrs st (field_query field value)
  = (Return [],
     match records st with
     | [] => st
     | _ :: _ => emit [Print (MsgNoField field); LogError (MsgNoField field)] st
     end).
Proof.
  intros Hf Hv Hfield Hmethod Hinherited.
  unfold search_records, field_query.
  assert (E : str_in [eq_sign] (lower (field ++ eq_sign :: value)) = true).
  { apply query_has_eq_sign, in_or_app. right. now left. }
  rewrite E, split_field_value by assumption.
  destruct (records st) as [|r rs]; simpl; [reflexivity|].
  unfold hasattr, getattr. now rewrite Hfield, Hmethod, Hinherited.
Qed.

End Search.

(** ** Edit *)

Section Edit.

Variable text : Type.
Variable json_dump : pyval -> text.
Variable py_int : pystr -> option Z.

(** What [edit_record] does when the index is in range, the first line is
    a number that selects a field and a second line follows: the new value
    is assigned and saved as it is, whether or not it fits the pattern. *)
Lemma edit_record_assigns (st : state text) (index n : Z) (record : RecordT)
    (line new_value : pystr) (rest : list pystr) (f : Field) :
  (0 <= index)%Z ->
  nth_error (records st) (Z.to_nat index) = Some record ->
  stdin st = line :: new_value :: rest ->
  py_int line = Some n ->
  py_index fields (n - 1) = Some f ->
  exists st',
    edit_record json_dump py_int st index = (Return tt, st')
    /\ records st' = list_set (records st) (Z.to_nat index) (set_field f new_value record)
    /\ file st' = Some (json_dump (records_data (records st'))).
Proof.
  intros Hindex Hnth Hstdin Hint Hfield. unfold edit_record.
  assert (Hlt : (index <? Z.of_nat (length (records st)))%Z = true).
  { apply Z.ltb_lt. assert (Hsome : nth_error (records st) (Z.to_nat index) <> None) by congruence.
    apply nth_error_Some in Hsome. lia. }
  destruct (Z.leb_spec 0 index) as [_|?]; [|lia]. rewrite Hlt, Hnth. cbn [andb].
  unfold input, emit. cbn [stdin file records output]. rewrite Hstdin, Hint, Hfield.
  cbn [stdin file records output]. eexists. split; [reflexivity|].
  unfold save_records, set_records. cbn [stdin file records output]. now split.
Qed.

End Edit.

(** ** The sample functions satisfy what the theorems assume *)

Lemma sample_lower_char_eq_sign (c : N) : sample_lower_char c = eq_sign <-> c = eq_sign.
Proof.
  unfold sample_lower_char, in_range, eq_sign.
  destruct (N.leb_spec 65 c), (N.leb_spec c 90), (N.leb_spec 1040 c),
    (N.leb_spec c 1071), (N.leb_spec 1024 c), (N.leb_spec c 1039);
    cbn [andb orb]; lia.
Qed.

Lemma sample_lower_eq_sign (s : pystr) : In eq_sign (sample_lower s) <-> In eq_sign s.
Proof.
  unfold sample_lower. rewrite in_map_iff. split.
  - intros (c & Hc & Hin). apply (proj1 (sample_lower_char_eq_sign c)) in Hc. now subst.
  - intro Hin. exists eq_sign. split; [reflexivity | exact Hin].
Qed.

Lemma sample_load_dump (rs : list RecordT) :
  sample_load (sample_dump (records_data rs)) = Return (records_data rs).
Proof. reflexivity. Qed.

(** Decides that a literal holds no ['=']. *)
Ltac no_eq_sign :=
  let H := fresh in
  intro H; apply str_in_char in H; vm_compute in H; discriminate H.

(** Decides that a literal holds ['=']. *)
Ltac has_eq_sign := apply str_in_char; vm_compute; reflexivity.

(** ** The claims at concrete inputs *)

(** C1 on the code: [edit_record] assigns the new value without
    validating it.  Editing the first name of a valid record to ["1"]
    returns normally; the directory then holds, and the file then stores, a
    record whose first name [validate_string_fields] refuses, and the next
    [load_records] of that file returns the empty list. *)
Theorem edit_record_stores_invalid_value :
  exists st',
    edit_record sample_dump sample_int (sample_state [sokolov] [str "2"; str "1"]) 0
    = (Return tt, st')
    /\ record_valid sokolov = true
    /\ records st' = [set_field f_first_name (str "1") sokolov]
    /\ validate_string_fields (str "1") = Raise (PydanticCustomError InvalidData)
    /\ file st' = Some (sample_dump (records_data (records st')))
    /\ fst (load_records sample_load st') = Return [].
Proof.
  eexists. split; [vm_compute; reflexivity|].
  repeat split; vm_compute; reflexivity.
Qed.

(** C2 on the code: the query ["first_name=a=b"] names the field
    [first_name] and the value ["a=b"]; no record has that first name, and
    [search_records] raises [ValueError] where the empty list is due. *)
Theorem search_records_value_with_eq_sign :
  field_of_name (str "first_name") = Some f_first_name
  /\ search_records sample_lower sample_attrs (sample_state [sokolov_andrey] [])
       (field_query (str "first_name") (str "a=b"))
     = (Raise ValueError, sample_state [sokolov_andrey] []).
Proof. split; vm_compute; reflexivity. Qed.

(** C3 at the query ["organization=a=b"]. *)
Lemma search_records_second_eq_sign_witness :
  search_records sample_lower sample_attrs (sample_state [ivanov; petrova] [])
    (field_query (str "organization") (str "a=b"))
  = (Raise ValueError, sample_state [ivanov; petrova] []).
Proof.
  apply (search_records_second_eq_sign pyval sample_lower sample_attrs sample_lower_eq_sign).
  - no_eq_sign.
  - has_eq_sign.
Defined.

(** C4 at concrete inputs: the phone numbers of the tests are accepted, one
    followed by a final newline too, and one followed by other characters
    is not. *)
Example validate_phone_examples :
  validate_phone (str "495-555-6666") = Return (str "495-555-6666")
  /\ validate_phone (str "495-555-6666" ++ [newline]) = Return (str "495-555-6666" ++ [newline])
  /\ validate_phone (str "495-555-6666 ext") = Raise (PydanticCustomError InvalidPhoneNumber)
  /\ validate_phone (str "тест") = Raise (PydanticCustomError InvalidPhoneNumber).
Proof. repeat split; vm_compute; reflexivity. Qed.

(** C5, as amended, at a file that holds a valid record, then one whose last
    name is ["1"], then another valid record. *)
Lemma load_records_all_or_nothing_witness :
  load_records sample_load
    (mkState (Some (VList ([VDict (asdict sokolov)] ++ bad_entry :: [VDict (asdict ivanov)])))
       [] [] [])
  = (Return [],
     emit [LogError (MsgValidationError (ValidationError [(str "last_name", InvalidData)]))]
       (mkState (Some (VList ([VDict (asdict sokolov)] ++ bad_entry :: [VDict (asdict ivanov)])))
          [] [] [])).
Proof.
  apply (load_records_all_or_nothing pyval sample_load _
           (VList ([VDict (asdict sokolov)] ++ bad_entry :: [VDict (asdict ivanov)]))
           [VDict (asdict sokolov)] [VDict (asdict ivanov)] bad_entry
           [(str "last_name", InvalidData)]).
  - reflexivity.
  - reflexivity.
  - repeat constructor. exists sokolov. vm_compute. reflexivity.
  - vm_compute. reflexivity.
Defined.

(** C5, as stated, fails.  A file that holds a valid record, the number 1
    and a record whose last name is ["1"] parses and contains a record that
    fails validation, and [load_records] ends in an uncaught [TypeError] at
    the number, not in the empty list; so does a file whose first entry is an
    object with the key [__dataclass_self__]. *)
Lemma load_records_entry_before_invalid_record :
  ~ (forall (st : state pyval) (t : pyval) (items : list pyval),
        file st = Some t ->
        sample_load t = Return (VList items) ->
        Exists (fun data => exists errors, Record_of data = Raise (ValidationError errors))
          items ->
        exists errors,
          load_records sample_load st
          = (Return [], emit [LogError (MsgValidationError (ValidationError errors))] st))
  /\ load_records sample_load
       (mkState (Some (VList [VDict ((self_parameter, VInt 0) :: asdict sokolov); bad_entry]))
          [] [] [])
     = (Raise TypeError,
        mkState (Some (VList [VDict ((self_parameter, VInt 0) :: asdict sokolov); bad_entry]))
          [] [] []).
Proof.
  split; [|vm_compute; reflexivity].
  intro H.
  destruct (H (mkState (Some (VList [VDict (asdict ivanov); VInt 1; bad_entry])) [] [] [])
              (VList [VDict (asdict ivanov); VInt 1; bad_entry])
              [VDict (asdict ivanov); VInt 1; bad_entry] eq_refl eq_refl) as [errors Herr].
  - apply Exists_cons_tl, Exists_cons_tl, Exists_cons_hd. eexists. vm_compute. reflexivity.
  - vm_compute in Herr. discriminate Herr.
Qed.

(** C6 at the query ["андрей"] of the tests. *)
Lemma search_records_substring_witness :
  exists hit : RecordT -> bool,
    (forall r, hit r = true <-> contains_query sample_lower (str "андрей") r)
    /\ search_records sample_lower sample_attrs
         (sample_state [ivanov; sokolov_andrey; petrova] []) (str "андрей")
       = (Return (filter hit [ivanov; sokolov_andrey; petrova]),
          sample_state [ivanov; sokolov_andrey; petrova] []).
Proof.
  apply (search_records_substring pyval sample_lower sample_attrs sample_lower_eq_sign
           (sample_state [ivanov; sokolov_andrey; petrova] []) (str "андрей")).
  no_eq_sign.
Defined.

(** The searches of the tests: by field, by an unknown field, by substring. *)
Example search_records_examples :
  search_records sample_lower sample_attrs (sample_state [ivanov; sokolov_andrey; petrova] [])
    (str "first_name=андрей")
  = (Return [sokolov_andrey], sample_state [ivanov; sokolov_andrey; petrova] [])
  /\ fst (search_records sample_lower sample_attrs
            (sample_state [ivanov; sokolov_andrey; petrova] []) (str "first_nam=андрей"))
     = Return []
  /\ fst (search_records sample_lower sample_attrs
            (sample_state [ivanov; sokolov_andrey; petrova] []) (str "андрей"))
     = Return [sokolov_andrey].
Proof. repeat split; vm_compute; reflexivity. Qed.

(** C7, as amended, at the query ["first_nam=андрей"] of the tests. *)
Lemma search_records_unknown_field_witness :
  search_records sample_lower sample_attrs (sample_state [ivanov; sokolov_andrey] [])
    (field_query (str "first_nam") (str "андрей"))
  = (Return [],
     emit [Print (MsgNoField (str "first_nam")); LogError (MsgNoField (str "first_nam"))]
       (sample_state [ivanov; sokolov_andrey] [])).
Proof.
  apply (search_records_unknown_field pyval sample_lower sample_attrs sample_lower_eq_sign
           (sample_state [ivanov; sokolov_andrey] []) (str "first_nam") (str "андрей")).
  - no_eq_sign.
  - no_eq_sign.
  - reflexivity.
  - reflexivity.
  - reflexivity.
Defined.

(** C7, as stated, fails.  On the empty directory the query
    ["first_nam=андрей"] is answered by the empty list with no message
    printed or logged; and the query ["validate_phone=x"], whose field is
    none of the six, finds the method of that name and raises
    [AttributeError]. *)
Lemma search_records_unknown_field_unreported :
  search_records sample_lower sample_attrs (sample_state [] [])
    (field_query (str "first_nam") (str "андрей"))
  <> (Return [],
      emit [Print (MsgNoField (str "first_nam")); LogError (MsgNoField (str "first_nam"))]
        (sample_state [] []))
  /\ field_of_name (str "validate_phone") = None
  /\ search_records sample_lower sample_attrs (sample_state [sokolov] [])
       (field_query (str "validate_phone") (str "x"))
     = (Raise AttributeError, sample_state [sokolov] []).
Proof.
  split; [|split]; [|vm_compute; reflexivity..].
  intro H. vm_compute in H. discriminate H.
Qed.

(** C8 at three records of the tests, loaded by a directory that holds
    none. *)
Lemma save_then_load_restores_witness :
  load_records sample_load (stored [ivanov; petrova; sokolov] [])
  = (Return [ivanov; petrova; sokolov], stored [ivanov; petrova; sokolov] []).
Proof.
  apply (save_then_load_restores pyval sample_dump sample_load sample_load_dump
           (sample_state [ivanov; petrova; sokolov] []) (stored [ivanov; petrova; sokolov] [])).
  - repeat constructor.
  - reflexivity.
Defined.

(** C9, as amended, at fifteen records, five a page, page 1. *)
Lemma display_records_page_witness :
  exists total,
    display_records (sample_state fifteen []) (Some fifteen) 5 1
    = (Return tt, emit (page_output fifteen 5 1 total) (sample_state fifteen []))
    /\ is_ceiling 15 5 total
    /\ (1 = 0 \/ 15 <= (1 - 1) * 5 -> window fifteen ((1 - 1) * 5) ((1 - 1) * 5 + 5) = [])%Z.
Proof.
  apply (display_records_page pyval (sample_state fifteen []) (Some fifteen) 5 1).
  - split; reflexivity.
  - lia.
Defined.

(** Fifteen records, five a page: page 1 shows the records 1 to 5 of 3
    pages, and page 4 shows none. *)
Example display_records_fifteen :
  display_records (sample_state fifteen []) None 5 1
  = (Return tt,
     emit (print_page (repeat ivanov 5) 1 ++ [Print (MsgPage 1 3)]) (sample_state fifteen []))
  /\ display_records (sample_state fifteen []) None 5 4
     = (Return tt, emit [Print (MsgPage 4 3)] (sample_state fifteen [])).
Proof. split; vm_compute; reflexivity. Qed.

(** C9, as stated, fails.  Page -1 of fifteen records, five a page, is out
    of range, and [display_records] shows the records 6 to 10, numbered
    from -9, not the empty page of the specification; for an empty list it
    shows the directory's record and 1 page, not an empty page of 0 pages;
    and for one record and a page size of 2^1075 the float quotient is
    [0.0], so it reports 0 pages and not 1. *)
Lemma display_records_negative_page :
  display_records (sample_state fifteen []) (Some fifteen) 5 (-1)
  = (Return tt,
     emit (print_page (repeat petrova 5) (-9) ++ [Print (MsgPage (-1) 3)])
       (sample_state fifteen []))
  /\ display_records (sample_state fifteen []) (Some fifteen) 5 (-1)
     <> (Return tt, emit (page_output fifteen 5 (-1) 3) (sample_state fifteen []))
  /\ display_records (sample_state [sokolov] []) (Some []) 5 1
     <> (Return tt, emit (page_output [] 5 1 0) (sample_state [sokolov] []))
  /\ display_records (sample_state [sokolov] []) (Some [sokolov]) underflow_bound 1
     = (Return tt,
        emit [Print (MsgRecord 1 sokolov); Print (MsgPage 1 0)] (sample_state [sokolov] []))
  /\ is_ceiling 1 underflow_bound 1.
Proof.
  split; [vm_compute; reflexivity|].
  split; [intro H; vm_compute in H; discriminate H|].
  split; [intro H; vm_compute in H; discriminate H|].
  split; [vm_compute; reflexivity|].
  pose proof underflow_bound_pos. unfold is_ceiling. lia.
Qed.


(** C10 at a directory of one record: the empty list shows that record. *)
Example display_records_empty_list_example :
  display_records (sample_state [sokolov] []) (Some []) 5 1
  = (Return tt,
     emit [Print (MsgRecord 1 sokolov); Print (MsgPage 1 1)] (sample_state [sokolov] [])).
Proof. vm_compute. reflexivity. Qed.

(** * Further properties of the code *)

(** ** Name validation *)

Lemma Matches_Star_Cls (p : N -> bool) (w : pystr) :
  Matches (Star (Cls p)) w <-> forallb p w = true.
Proof.
  split.
  - intro H. remember (Star (Cls p)) as q eqn:Eq.
    induction H as [| | | | | |r u v Hu _ Hv IHv]; try discriminate; [reflexivity|].
    injection Eq as ->. apply Matches_Cls_iff in Hu as (c & -> & Hc).
    simpl. rewrite Hc. now apply IHv.
  - induction w as [|c w IH]; simpl; intro H; [constructor|].
    apply andb_true_iff in H as [Hc Hw].
    change (c :: w) with ([c] ++ w). constructor; [now constructor | now apply IH].
Qed.

Lemma Matches_Plus_Cls (p : N -> bool) (w : pystr) :
  Matches (Plus (Cls p)) w <-> w <> [] /\ forallb p w = true.
Proof.
  unfold Plus. rewrite Matches_Cat_iff. split.
  - intros (u & v & -> & Hu & Hv). apply Matches_Cls_iff in Hu as (c & -> & Hc).
    apply Matches_Star_Cls in Hv. simpl. rewrite Hc, Hv. split; [discriminate | reflexivity].
  - intros [Hne Hf]. destruct w as [|c w]; [contradiction|].
    simpl in Hf. apply andb_true_iff in Hf as [Hc Hw].
    exists [c], w. split; [reflexivity|].
    split; [now constructor | now apply Matches_Star_Cls].
Qed.

Lemma name_pattern_spec (w : pystr) : Matches name_pattern w <-> name_shape w.
Proof.
  unfold name_pattern, name_shape, name_run. rewrite Matches_Cat_iff. split.
  - intros (a & v & -> & Ha & Hv). apply Matches_Plus_Cls in Ha.
    exists a. split; [exact Ha|].
    apply Matches_Opt_iff in Hv as [-> | Hv].
    + left. now rewrite app_nil_r.
    + right. apply Matches_Cat_iff in Hv as (h & b & -> & Hh & Hb).
      apply Matches_Cls_iff in Hh as (c & -> & Hc). apply N.eqb_eq in Hc. subst c.
      apply Matches_Plus_Cls in Hb. now exists b.
  - intros (a & Ha & [-> | (b & Hb & ->)]).
    + exists a, []. rewrite app_nil_r. split; [reflexivity|].
      split; [now apply Matches_Plus_Cls | apply Matches_Opt_iff; now left].
    + exists a, (hyphen :: b). split; [reflexivity|].
      split; [now apply Matches_Plus_Cls|].
      apply Matches_Opt_iff. right. change (hyphen :: b) with ([hyphen] ++ b).
      constructor; [constructor; apply N.eqb_refl | now apply Matches_Plus_Cls].
Qed.

Lemma validate_string_fields_Return (s : pystr) :
  validate_string_fields s = Return s <->
  exists w, name_shape w /\ (s = w \/ s = w ++ [newline]).
Proof.
  unfold validate_string_fields.
  destruct (re_match_anchored name_pattern s) eqn:E; simpl.
  - split; [intros _ | reflexivity].
    apply re_match_anchored_spec in E as (w & Hw & Hs).
    exists w. split; [now apply name_pattern_spec | exact Hs].
  - split; [discriminate|]. intros (w & Hw & Hs).
    assert (re_match_anchored name_pattern s = true); [|congruence].
    apply re_match_anchored_spec. exists w. split; [now apply name_pattern_spec | exact Hs].
Qed.

(** X1: [validate_string_fields] accepts a value, and returns it unchanged,
    exactly when the whole value, or the whole value without one final
    newline, is a run of one or more letters (Latin, or Cyrillic from U+0410
    to U+044F) and whitespace, optionally followed by one hyphen and a second
    such run; every other value raises. *)
Theorem validate_string_fields_spec (s : pystr) :
  (validate_string_fields s = Return s <->
   exists w, name_shape w /\ (s = w \/ s = w ++ [newline]))
  /\ (validate_string_fields s = Return s
      \/ validate_string_fields s = Raise (PydanticCustomError InvalidData)).
Proof.
  split; [apply validate_string_fields_Return|].
  unfold validate_string_fields.
  destruct (re_match_anchored name_pattern s); simpl; [now left | now right].
Qed.

Lemma name_run_no_hyphen (w : pystr) :
  forallb is_name_char w = true -> count_occ N.eq_dec w (hyphen) = O.
Proof.
  induction w as [|c w IH]; simpl; intro H; [reflexivity|].
  apply andb_true_iff in H as [Hc Hw].
  destruct (N.eq_dec c (hyphen)) as [->|_]; [vm_compute in Hc; discriminate|].
  now apply IH.
Qed.

(** X2: a value that [validate_string_fields] accepts is not empty, holds
    nothing but letters, whitespace and hyphens, and holds at most one
    hyphen: the empty string, a digit and a double-barrelled name with two
    hyphens are all refused. *)
Theorem validate_string_fields_accepts_only (s : pystr) :
  validate_string_fields s = Return s ->
  s <> []
  /\ Forall (fun c => is_name_char c = true \/ c = hyphen) s
  /\ count_occ N.eq_dec s (hyphen) <= 1.
Proof.
  intro H. apply validate_string_fields_Return in H as (w & (a & [Hane Ha] & Hw) & Hs).
  assert (Hshape : w <> []
                   /\ Forall (fun c => is_name_char c = true \/ c = hyphen) w
                   /\ count_occ N.eq_dec w (hyphen) <= 1).
  { destruct Hw as [-> | (b & [Hbne Hb] & ->)].
    - split; [exact Hane|]. split.
      + apply Forall_forall. intros c Hc. left.
        rewrite forallb_forall in Ha. now apply Ha.
      + rewrite (name_run_no_hyphen _ Ha). lia.
    - split; [destruct a; [contradiction | discriminate]|]. split.
      + apply Forall_app. split; [|constructor; [now right|]];
          apply Forall_forall; intros c Hc; left.
        * rewrite forallb_forall in Ha. now apply Ha.
        * rewrite forallb_forall in Hb. now apply Hb.
      + rewrite count_occ_app, (name_run_no_hyphen _ Ha). simpl.
        destruct (N.eq_dec (hyphen) (hyphen)); [|contradiction].
        rewrite (name_run_no_hyphen _ Hb). lia. }
  destruct Hshape as (Hne & Hall & Hcount). destruct Hs as [-> | ->].
  - now repeat split.
  - split; [destruct w; [contradiction | discriminate]|]. split.
    + apply Forall_app. split; [exact Hall|]. constructor; [left; reflexivity | constructor].
    + rewrite count_occ_app. cbn [count_occ].
      destruct (N.eq_dec newline hyphen); [discriminate | lia].
Qed.

(** ** Construction of a record, continued *)

Lemma field_name_injective (f g : Field) : field_name f = field_name g -> f = g.
Proof. destruct f, g; intro H; try reflexivity; vm_compute in H; discriminate H. Qed.

Lemma validate_field_inl_value (kwargs : list (pystr * pyval)) (f : Field) (v : pystr) :
  validate_field kwargs f = inl v -> dict_get (field_name f) kwargs = Some (VStr v).
Proof.
  unfold validate_field. destruct (dict_get (field_name f) kwargs) as [[| | | |s| |]|];
    try discriminate.
  destruct (field_validator f s) as [v'|e] eqn:E.
  - intro H. injection H as <-.
    now rewrite (field_validator_returns_argument _ _ _ E).
  - destruct e; discriminate.
Qed.

Lemma Record_init_ok_fields (kwargs : list (pystr * pyval)) (r : RecordT) (f : Field) :
  Record_init kwargs = Return r ->
  dict_get (field_name f) kwargs = Some (VStr (get_field f r))
  /\ field_validator f (get_field f r) = Return (get_field f r).
Proof.
  unfold Record_init. destruct (dict_get self_parameter kwargs); [discriminate|].
  unfold field_errors, validated, fields. simpl flat_map.
  destruct (validate_field kwargs f_last_name) as [v1|] eqn:E1; [|discriminate].
  destruct (validate_field kwargs f_first_name) as [v2|] eqn:E2; [|discriminate].
  destruct (validate_field kwargs f_middle_name) as [v3|] eqn:E3; [|discriminate].
  destruct (validate_field kwargs f_organization) as [v4|] eqn:E4; [|discriminate].
  destruct (validate_field kwargs f_work_phone) as [v5|] eqn:E5; [|discriminate].
  destruct (validate_field kwargs f_personal_phone) as [v6|] eqn:E6; [|discriminate].
  simpl. intro H. injection H as <-.
  destruct f; cbn [get_field last_name first_name middle_name organization work_phone
                   personal_phone];
    (split; [now apply validate_field_inl_value | now apply (validate_field_inl kwargs)]).
Qed.

(** X3: a record that [Record] returns holds, field by field, exactly the
    string given for that field (nothing is trimmed or case-folded), and
    that string passes the validator of the field. *)
Theorem Record_init_fields (kwargs : list (pystr * pyval)) (r : RecordT) (f : Field) :
  Record_init kwargs = Return r ->
  dict_get (field_name f) kwargs = Some (VStr (get_field f r))
  /\ field_validator f (get_field f r) = Return (get_field f r).
Proof. apply Record_init_ok_fields. Qed.

(** X4: constructing a record again from the fields of one that [Record]
    returned succeeds and gives an equal record. *)
Theorem Record_init_again (kwargs : list (pystr * pyval)) (r : RecordT) :
  Record_init kwargs = Return r -> Record_init (asdict r) = Return r.
Proof.
  intro H. apply Record_init_asdict. now apply (Record_init_valid kwargs).
Qed.

(** ** Loading and adding *)


Lemma build_records_valid (items : list pyval) (rs : list RecordT) :
  build_records items = Return rs -> Forall (fun r => record_valid r = true) rs.
Proof.
  revert rs. induction items as [|data items IH]; simpl; intros rs H.
  - injection H as <-. constructor.
  - destruct (Record_of data) as [r|e] eqn:Er; [|discriminate].
    destruct (build_records items) as [rs'|e] eqn:Eb; [|discriminate].
    injection H as <-. constructor; [|now apply IH].
    destruct data; try discriminate. now apply (Record_init_valid kv).
Qed.


Section Loading.

Variable text : Type.
Variable json_dump : pyval -> text.
Variable json_load : text -> result pyval.

Lemma load_records_Return (st st' : state text) (rs : list RecordT) :
  load_records json_load st = (Return rs, st') ->
  Forall (fun r => record_valid r = true) rs
  /\ file st' = file st /\ records st' = records st /\ stdin st' = stdin st.
Proof.
  unfold load_records. destruct (file st) as [t|] eqn:Ef.
  - destruct (read_records json_load t) as [rs'|e] eqn:Er.
    + intro H. injection H as <- <-. repeat split; [|exact Ef].
      unfold read_records in Er. destruct (json_load t) as [v|]; [|discriminate].
      destruct (py_iter v) as [items|]; [|discriminate].
      now apply (build_records_valid items).
    + destruct e; try discriminate; intro H; injection H as <- <-;
        (repeat split; [constructor | exact Ef]).
  - intro H. injection H as <- <-. repeat split; [constructor | exact Ef].
Qed.

(** X6: whatever the file holds, every record [load_records] returns
    satisfies the pattern of each of its fields, and loading changes neither
    the file nor the records held. *)
Theorem load_records_returns_valid (st st' : state text) (rs : list RecordT) :
  load_records json_load st = (Return rs, st') ->
  Forall (fun r => record_valid r = true) rs
  /\ file st' = file st /\ records st' = records st /\ stdin st' = stdin st.
Proof. apply load_records_Return. Qed.


(** X8: an entry of the file that is not an object, met before any record
    that fails validation, ends [load_records] with an uncaught [TypeError]. *)
Theorem load_records_entry_not_object (st : state text) (t : text)
    (good : list RecordT) (bad : pyval) (rest : list pyval) :
  file st = Some t ->
  json_load t = Return (VList (map (fun r => VDict (asdict r)) good ++ bad :: rest)) ->
  Forall (fun r => record_valid r = true) good ->
  ~ is_object bad ->
  load_records json_load st = (Raise TypeError, st).
Proof.
  intros Hfile Hload Hgood Hbad. unfold load_records, read_records.
  rewrite Hfile, Hload. simpl py_iter.
  cbv iota beta. clear Hload.
  assert (E : build_records (map (fun r => VDict (asdict r)) good ++ bad :: rest)
              = Raise TypeError).
  { induction Hgood as [|r good Hr _ IH]; cbn [map app build_records Record_of].
    - destruct bad; try reflexivity. exfalso. apply Hbad. now exists kv.
    - now rewrite (Record_init_asdict _ Hr), IH. }
  now rewrite E.
Qed.

(** X9: after [PhoneDirectory.__init__] returns, every record of the
    directory satisfies the pattern of each of its fields, and the file is
    as it was. *)
Theorem init_records_valid (st st' : state text) :
  init json_load st = (Return tt, st') ->
  Forall (fun r => record_valid r = true) (records st') /\ file st' = file st.
Proof.
  unfold init. destruct (load_records json_load st) as [[rs|e] st1] eqn:El; [|discriminate].
  intro H. injection H as <-.
  destruct (load_records_Return _ _ _ El) as (Hvalid & Hfile & _).
  split; [exact Hvalid | exact Hfile].
Qed.

(** [json.load] reads back what [json.dump] wrote for a list of records. *)
Hypothesis json_load_dump :
  forall rs, json_load (json_dump (records_data rs)) = Return (records_data rs).

(** X10: [add_record] puts the record after the records held, keeping
    them and their order, and saves; for valid records, loading the file it
    wrote gives the old records followed by the new one. *)
Theorem add_record_then_load (st : state text) (record : RecordT) :
  Forall (fun r => record_valid r = true) (records st) ->
  record_valid record = true ->
  records (add_record json_dump st record) = records st ++ [record]
  /\ load_records json_load (add_record json_dump st record)
     = (Return (records st ++ [record]), add_record json_dump st record).
Proof.
  intros Hvalid Hrecord. split; [reflexivity|].
  unfold load_records, read_records, add_record, save_records, set_records, emit.
  cbn [file records].
  rewrite json_load_dump. simpl py_iter. cbv iota beta.
  rewrite build_records_asdict; [reflexivity|].
  apply Forall_app. split; [exact Hvalid | now constructor].
Qed.

End Loading.

(** ** Editing *)

Lemma get_field_set_field_same (f : Field) (v : pystr) (r : RecordT) :
  get_field f (set_field f v r) = v.
Proof. destruct f; reflexivity. Qed.

Lemma get_field_set_field_other (f g : Field) (v : pystr) (r : RecordT) :
  g <> f -> get_field g (set_field f v r) = get_field g r.
Proof. destruct f, g; intro H; try reflexivity; contradiction. Qed.




Lemma Forall_list_set {A} (P : A -> Prop) (l : list A) (i : nat) (x : A) :
  Forall P l -> P x -> Forall P (list_set l i x).
Proof.
  intros Hl Hx. revert i. induction Hl as [|y l Hy Hl IH]; intros [|i]; simpl;
    constructor; auto.
Qed.

Lemma Field_eq_dec (f g : Field) : {f = g} + {f <> g}.
Proof. decide equality. Defined.

Lemma record_valid_set_field (f : Field) (v : pystr) (r : RecordT) :
  record_valid r = true -> field_validator f v = Return v ->
  record_valid (set_field f v r) = true.
Proof.
  intros Hr Hv. unfold record_valid. apply forallb_forall. intros g _.
  destruct (Field_eq_dec g f) as [->|Hne].
  - now rewrite get_field_set_field_same, Hv.
  - rewrite get_field_set_field_other by exact Hne.
    now rewrite (record_valid_field r g Hr).
Qed.

Lemma py_index_fields_wrap (n : Z) :
  (-5 <= n <= 0)%Z -> py_index fields (n - 1) = py_index fields (n + 6 - 1).
Proof.
  intro H.
  assert (Hn : (n = -5 \/ n = -4 \/ n = -3 \/ n = -2 \/ n = -1 \/ n = 0)%Z) by lia.
  destruct Hn as [->|[->|[->|[->|[->| ->]]]]]; reflexivity.
Qed.

Lemma py_index_fields_out_of_range (n : Z) :
  (n < -5 \/ 6 < n)%Z -> py_index fields (n - 1) = None.
Proof.
  intro H. unfold py_index. change (Z.of_nat (length fields)) with 6%Z.
  destruct (Z.leb_spec 0 (n - 1)).
  - apply nth_error_None. change (length fields) with 6. lia.
  - match goal with |- context [Z.leb ?a ?b] => destruct (Z.leb_spec a b) end;
      [lia | reflexivity].
Qed.

Section Editing.

Variable text : Type.
Variable json_dump : pyval -> text.
Variable json_load : text -> result pyval.
Variable py_int : pystr -> option Z.




(** X13: for an index below 0 or past the last record, [edit_record]
    logs and prints that the index is invalid, reads no input and changes
    nothing else. *)
Theorem edit_record_invalid_index (st : state text) (index : Z) :
  (index < 0 \/ Z.of_nat (length (records st)) <= index)%Z ->
  edit_record json_dump py_int st index
  = (Return tt, emit [LogError MsgInvalidIndex; Print MsgInvalidIndex] st).
Proof.
  intro H. unfold edit_record.
  destruct (Z.leb_spec 0 index); destruct (Z.ltb_spec index (Z.of_nat (length (records st))));
    cbn [andb]; try reflexivity; lia.
Qed.

(** X14: a field number outside -5..6 is caught as an invalid input:
    the records and the file stay as they were, the message is logged and
    printed last, and the line with the new value is not read. *)
Theorem edit_record_field_number_out_of_range (st : state text) (index n : Z)
    (line : pystr) (rest : list pystr) :
  (0 <= index < Z.of_nat (length (records st)))%Z ->
  stdin st = line :: rest ->
  py_int line = Some n ->
  (n < -5 \/ 6 < n)%Z ->
  exists st' shown,
    edit_record json_dump py_int st index = (Return tt, st')
    /\ records st' = records st /\ file st' = file st /\ stdin st' = rest
    /\ output st' = output st ++ shown ++ [LogException MsgInvalidInput; Print MsgInvalidInput].
Proof.
  intros [Hlo Hhi] Hstdin Hint Hn. unfold edit_record.
  destruct (Z.leb_spec 0 index); [|lia].
  destruct (Z.ltb_spec index (Z.of_nat (length (records st)))); [|lia]. cbn [andb].
  destruct (nth_error (records st) (Z.to_nat index)) as [record|] eqn:Hnth.
  - unfold input, emit. cbn [stdin file records output].
    rewrite Hstdin, Hint, (py_index_fields_out_of_range n Hn).
    cbn [stdin file records output]. eexists.
    exists (([Print MsgCurrentValues]
             ++ map (fun f => Print (MsgValue (field_name f) (get_field f record))) fields
             ++ [Print MsgChooseField]
             ++ map (fun p => Print (MsgChoice (fst p) (field_name (snd p))))
                  (enumerate fields 1)) ++ [Prompt]).
    split; [reflexivity|]. cbn [stdin file records output].
    split; [reflexivity|]. split; [reflexivity|]. split; [reflexivity|].
    now rewrite <- !app_assoc.
  - exfalso. apply nth_error_None in Hnth. lia.
Qed.

(** X15: a first line that is not an integer raises [ValueError], which
    [edit_record] does not catch; the records and the file stay as they
    were. *)
Theorem edit_record_not_a_number (st : state text) (index : Z)
    (line : pystr) (rest : list pystr) :
  (0 <= index < Z.of_nat (length (records st)))%Z ->
  stdin st = line :: rest ->
  py_int line = None ->
  exists st',
    edit_record json_dump py_int st index = (Raise ValueError, st')
    /\ records st' = records st /\ file st' = file st.
Proof.
  intros [Hlo Hhi] Hstdin Hint. unfold edit_record.
  destruct (Z.leb_spec 0 index); [|lia].
  destruct (Z.ltb_spec index (Z.of_nat (length (records st)))); [|lia]. cbn [andb].
  destruct (nth_error (records st) (Z.to_nat index)) as [record|] eqn:Hnth.
  - unfold input, emit. cbn [stdin file records output]. rewrite Hstdin, Hint.
    eexists. split; [reflexivity|]. now split.
  - exfalso. apply nth_error_None in Hnth. lia.
Qed.

(** X16: field numbers from -5 to 0 are taken from the end of the field
    list, as Python indexes: a number [n] in that range edits the same field
    as [n + 6], so 0 edits the personal phone and -5 the last name. *)
Theorem edit_record_field_number_wraps (fl : option text) (rs : list RecordT)
    (out : list event) (index n : Z) (line line' : pystr) (rest : list pystr) :
  (0 <= index < Z.of_nat (length rs))%Z ->
  (-5 <= n <= 0)%Z ->
  py_int line = Some n ->
  py_int line' = Some (n + 6)%Z ->
  edit_record json_dump py_int (mkState fl rs (line :: rest) out) index
  = edit_record json_dump py_int (mkState fl rs (line' :: rest) out) index.
Proof.
  intros Hindex Hn Hint Hint'. unfold edit_record, input, emit.
  cbn [stdin file records output].
  destruct (Z.leb_spec 0 index); [|lia].
  destruct (Z.ltb_spec index (Z.of_nat (length rs))); [|lia]. cbn [andb].
  destruct (nth_error rs (Z.to_nat index)) as [record|] eqn:Hnth.
  - rewrite Hint, Hint', (py_index_fields_wrap n Hn). reflexivity.
  - exfalso. apply nth_error_None in Hnth. lia.
Qed.

(** [json.load] reads back what [json.dump] wrote for a list of records. *)
Hypothesis json_load_dump :
  forall rs0, json_load (json_dump (records_data rs0)) = Return (records_data rs0).

(** X17: an edit that puts a value its field's validator accepts into a
    directory of valid records leaves a directory of valid records, and
    loading the file it saved gives that directory back. *)
Theorem edit_record_valid_value (st : state text) (index n : Z) (record : RecordT)
    (line new_value : pystr) (rest : list pystr) (f : Field) :
  (0 <= index)%Z ->
  nth_error (records st) (Z.to_nat index) = Some record ->
  stdin st = line :: new_value :: rest ->
  py_int line = Some n ->
  py_index fields (n - 1) = Some f ->
  Forall (fun r => record_valid r = true) (records st) ->
  field_validator f new_value = Return new_value ->
  exists st',
    edit_record json_dump py_int st index = (Return tt, st')
    /\ Forall (fun r => record_valid r = true) (records st')
    /\ load_records json_load st' = (Return (records st'), st').
Proof.
  intros Hindex Hnth Hstdin Hint Hfield Hvalid Hvalue.
  destruct (edit_record_assigns text json_dump py_int st index n record line new_value rest f
              Hindex Hnth Hstdin Hint Hfield) as (st' & Hedit & Hrecords & Hfile).
  assert (Hvalid' : Forall (fun r => record_valid r = true) (records st')).
  { rewrite Hrecords. apply Forall_list_set; [exact Hvalid|].
    apply record_valid_set_field; [|exact Hvalue].
    rewrite Forall_forall in Hvalid. apply Hvalid. now apply (nth_error_In _ _ Hnth). }
  exists st'. split; [exact Hedit|]. split; [exact Hvalid'|].
  unfold load_records, read_records. rewrite Hfile, json_load_dump.
  simpl py_iter. cbv iota beta.
  now rewrite (build_records_asdict _ Hvalid').
Qed.

End Editing.

(** ** Searching *)

Lemma filter_none {A} (f : A -> bool) (l : list A) :
  (forall x, In x l -> f x = false) -> filter f l = [].
Proof.
  induction l as [|x l IH]; intro H; simpl; [reflexivity|].
  rewrite (H x (or_introl eq_refl)). apply IH. intros y Hy. apply H. now right.
Qed.

Lemma filter_all {A} (f : A -> bool) (l : list A) :
  (forall x, f x = true) -> filter f l = l.
Proof.
  intro H. induction l as [|x l IH]; simpl; [reflexivity|]. now rewrite H, IH.
Qed.

Lemma str_in_nil (s : pystr) : str_in [] s = true.
Proof. destruct s; reflexivity. Qed.

Section Searching.

Variable text : Type.
Variable lower : pystr -> pystr.
Variable inherited_attrs : pystr -> option attribute.

(** Whether a name is an attribute does not depend on the record. *)
Lemma getattr_None_any (r r' : RecordT) (name : pystr) :
  getattr inherited_attrs r name = None -> getattr inherited_attrs r' name = None.
Proof.
  unfold getattr. destruct (field_of_name name); [discriminate|].
  now destruct (existsb (str_eqb name) method_names).
Qed.

Lemma search_field_frame (field value : pystr) (rs results : list RecordT)
    (st st' : state text) (res : result (list RecordT)) :
  search_field lower inherited_attrs field value rs results st = (res, st') ->
  file st' = file st /\ records st' = records st /\ stdin st' = stdin st.
Proof.
  revert results. induction rs as [|r rs IH]; intros results; simpl.
  - intro H. injection H as <- <-. now repeat split.
  - destruct (hasattr inherited_attrs r field); cbn [negb].
    + destruct (getattr inherited_attrs r field) as [a|];
        [|intro H; injection H as <- <-; now repeat split].
      destruct (attr_lower lower a) as [l|e];
        [|intro H; injection H as <- <-; now repeat split].
      destruct (str_eqb l (lower value)); apply IH.
    + intro H. injection H as <- <-. now repeat split.
Qed.

Lemma search_field_is_filter (field value : pystr) (rs results out : list RecordT)
    (st st' : state text) :
  search_field lower inherited_attrs field value rs results st = (Return out, st') ->
  out = results
        ++ filter (fun r => match getattr inherited_attrs r field with
                            | Some (AttrStr s) => str_eqb (lower s) (lower value)
                            | _ => false
                            end) rs.
Proof.
  revert results. induction rs as [|r rs IH]; intros results; simpl.
  - intro H. injection H as <- _. now rewrite app_nil_r.
  - unfold hasattr. destruct (getattr inherited_attrs r field) as [a|] eqn:Ea; cbn [negb].
    + destruct a as [s|]; simpl; [|discriminate].
      destruct (str_eqb (lower s) (lower value)).
      * intro H. apply IH in H. now rewrite <- app_assoc in H.
      * apply IH.
    + intro H. injection H as <- _.
      rewrite filter_none; [now rewrite app_nil_r|].
      intros r' _. now rewrite (getattr_None_any r r' field Ea).
Qed.

(** X18: [search_records] only reads.  Whatever the query, and whether it
    returns or raises, the records, the file and the pending input are as
    they were; and a list it returns is the directory filtered by some test
    on single records, so every record returned is in the directory, as
    often and in the same order. *)
Theorem search_records_reads_only (st st' : state text) (query : pystr)
    (res : result (list RecordT)) :
  search_records lower inherited_attrs st query = (res, st') ->
  file st' = file st /\ records st' = records st /\ stdin st' = stdin st
  /\ forall out, res = Return out -> exists hit, out = filter hit (records st).
Proof.
  unfold search_records. destruct (str_in [eq_sign] (lower query)).
  - destruct (split eq_sign query) as [|field [|value [|more parts]]];
      try (intro H; injection H as <- <-; repeat split; intros out Hout; discriminate).
    intro H. destruct (search_field_frame _ _ _ _ _ _ _ H) as (Hf & Hr & Hs).
    repeat split; try assumption. intros out ->.
    apply search_field_is_filter in H. eexists. exact H.
  - intro H. injection H as <- <-. repeat split. intros out Hout. injection Hout as <-.
    eexists. rewrite search_any_filter. reflexivity.
Qed.

(** Lower-casing neither removes nor introduces ['=']. *)
Hypothesis lower_eq_sign : forall s, In eq_sign (lower s) <-> In eq_sign s.

(** X19: a query [name=value] whose name is one of the two validator
    methods of the class passes the attribute test and then fails on
    [.lower()]: on a directory that holds a record, [search_records] raises
    [AttributeError] and reports nothing. *)
Theorem search_records_method_name (st : state text) (field value : pystr)
    (r : RecordT) (rs : list RecordT) :
  existsb (str_eqb field) method_names = true ->
  ~ In eq_sign value ->
  records st = r :: rs ->
  search_records lower inherited_attrs st (field_query field value)
  = (Raise AttributeError, st).
Proof.
  intros Hmethod Hv Hrecords.
  assert (Hname : field = str "validate_string_fields" \/ field = str "validate_phone").
  { unfold method_names in Hmethod. cbn [existsb] in Hmethod.
    rewrite orb_false_r in Hmethod. apply orb_true_iff in Hmethod.
    destruct Hmethod as [H|H]; apply str_eqb_eq in H; [now left | now right]. }
  unfold search_records, field_query.
  assert (E : str_in [eq_sign] (lower (field ++ eq_sign :: value)) = true).
  { apply str_in_char, lower_eq_sign, in_or_app. right. now left. }
  rewrite E.
  destruct Hname as [-> | ->];
    (rewrite split_field_value; [|no_eq_sign|exact Hv]);
    rewrite Hrecords; reflexivity.
Qed.

(** X20: the empty query matches every record: [search_records] returns
    the whole directory. *)
Theorem search_records_empty_query (st : state text) :
  lower [] = [] ->
  search_records lower inherited_attrs st [] = (Return (records st), st).
Proof.
  intro Hlower. unfold search_records. rewrite Hlower. cbn [str_in startswith orb].
  rewrite search_any_filter, Hlower. cbn [app]. f_equal. f_equal.
  apply filter_all. intro r. unfold values, fields. cbn [map existsb].
  now rewrite str_in_nil.
Qed.

End Searching.

(** ** Displaying *)

Lemma enumerate_In {A} (l : list A) (start i : Z) (x : A) :
  In (i, x) (enumerate l start) <->
  exists k, i = (start + Z.of_nat k)%Z /\ nth_error l k = Some x.
Proof.
  revert start. induction l as [|y l IH]; intro start; simpl.
  - split; [contradiction | intros (k & _ & H); destruct k; discriminate].
  - rewrite IH. split.
    + intros [H | (k & -> & Hk)].
      * injection H as <- <-. exists O. split; [lia | reflexivity].
      * exists (S k). split; [lia | exact Hk].
    + intros ([|k] & -> & Hk); simpl in Hk.
      * left. injection Hk as ->. f_equal. lia.
      * right. exists k. split; [lia | exact Hk].
Qed.

Lemma shown_records_print_page (page : list RecordT) (first : Z) (es : list event) :
  shown_records (print_page page first ++ es) = page ++ shown_records es.
Proof.
  unfold print_page. revert first. induction page as [|r page IH]; intro first; simpl;
    [reflexivity|]. now rewrite IH.
Qed.

(** The pages of a list, one after the other, are its first records. *)
Lemma pages_concat {A} (l : list A) (s k : nat) :
  concat (map (fun i => firstn s (skipn (i * s) l)) (seq 0 k)) = firstn (k * s) l.
Proof.
  induction k as [|k IH]; [reflexivity|].
  rewrite seq_S, map_app, concat_app, IH. cbn [map concat Nat.add]. rewrite app_nil_r.
  rewrite <- (firstn_skipn (k * s) (firstn (S k * s) l)) at 1.
  rewrite firstn_firstn, skipn_firstn_comm.
  replace (Nat.min (k * s) (S k * s)) with (k * s) by lia.
  replace (S k * s - k * s) with s by lia. reflexivity.
Qed.

Section Displaying.

Variable text : Type.

Lemma display_records_output (st : state text) (rs : option (list RecordT)) (s p : Z) :
  s <> 0%Z ->
  display_records st rs s p
  = (Return tt,
     emit (print_page (py_slice (py_or rs (records st)) ((p - 1) * s) ((p - 1) * s + s))
             ((p - 1) * s + 1)
           ++ [Print (MsgPage p (ceil_div (Z.of_nat (length (py_or rs (records st)))) s))]) st).
Proof.
  intro Hs. unfold display_records, print_page, emit.
  destruct (Z.eqb_spec s 0); [contradiction|]. cbn [file records stdin output].
  now rewrite <- app_assoc.
Qed.

(** X21: with a page size of 0, [display_records] prints no record and
    then raises [ZeroDivisionError] when it computes the page count; the
    state is as it was. *)
Theorem display_records_page_size_zero (st : state text) (rs : option (list RecordT)) (p : Z) :
  display_records st rs 0 p = (Raise ZeroDivisionError, st).
Proof.
  unfold display_records. cbn [Z.eqb]. f_equal.
  rewrite Z.mul_0_r, Z.add_0_r. unfold py_slice, slice_bound. cbn [Z.ltb Z.compare].
  rewrite Z.sub_diag. cbn [Z.to_nat firstn enumerate map]. unfold emit.
  rewrite app_nil_r. now destruct st.
Qed.

(** X22: every line "ID i" that [display_records] prints for a page
    number [p >= 1] and a page size [s > 0] carries the 1-based position of
    its record in the list displayed, and that position lies on page [p]. *)
Theorem display_records_ids (st : state text) (rs : option (list RecordT)) (s p i : Z)
    (r : RecordT) :
  (0 < s)%Z -> (1 <= p)%Z ->
  output st = [] ->
  In (Print (MsgRecord i r)) (output (snd (display_records st rs s p))) ->
  ((p - 1) * s < i <= p * s)%Z
  /\ nth_error (py_or rs (records st)) (Z.to_nat (i - 1)) = Some r.
Proof.
  intros Hs Hp Hout Hin.
  rewrite display_records_output in Hin by lia. cbn [snd emit output] in Hin.
  rewrite Hout in Hin. cbn [app] in Hin.
  apply in_app_or in Hin as [Hin | [Hin | []]]; [|discriminate].
  unfold print_page in Hin. apply in_map_iff in Hin as ([i' r'] & Heq & Hin).
  cbn [fst snd] in Heq. injection Heq as -> ->.
  apply enumerate_In in Hin as (k & -> & Hk).
  rewrite py_slice_window in Hk by nia.
  rewrite window_nth_error in Hk.
  rewrite (Z.max_l ((p - 1) * s) 0) in Hk by nia.
  destruct (Z.ltb_spec ((p - 1) * s + Z.of_nat k) ((p - 1) * s + s)); [|discriminate].
  split; [nia|].
  replace (Z.to_nat ((p - 1) * s + 1 + Z.of_nat k - 1)) with (Z.to_nat ((p - 1) * s) + k)
    by nia.
  exact Hk.
Qed.

(** X23: the pages from 1 to the page count that [display_records]
    reports, shown one after the other, show every record of the list
    exactly once and in order (for a page size [0 < s < 2^1075]). *)
Theorem display_records_pages_cover (st : state text) (rs : option (list RecordT)) (s : Z) :
  (0 < s < underflow_bound)%Z ->
  output st = [] ->
  concat (map (fun p => shown_records (output (snd (display_records st rs s p))))
              (page_numbers (ceil_div (Z.of_nat (length (py_or rs (records st)))) s)))
  = py_or rs (records st).
Proof.
  intros [Hs Hbound] Hout.
  set (l := py_or rs (records st)).
  pose proof (ceil_div_is_ceiling (Z.of_nat (length l)) s (conj Hs Hbound)) as [Hlo Hhi].
  set (total := ceil_div (Z.of_nat (length l)) s) in *.
  assert (Htotal : (0 <= total)%Z) by nia.
  unfold page_numbers. rewrite map_map.
  rewrite <- seq_shift, map_map.
  rewrite (map_ext_in _ (fun i => firstn (Z.to_nat s) (skipn (i * Z.to_nat s) l))).
  - rewrite pages_concat. apply firstn_all2. nia.
  - intros i _. rewrite display_records_output by lia. cbn [snd emit output].
    rewrite Hout. cbn [app]. rewrite shown_records_print_page. cbn [shown_records].
    rewrite app_nil_r. fold l.
    replace ((Z.of_nat (S i) - 1) * s)%Z with (Z.of_nat i * s)%Z by lia.
    rewrite py_slice_window by nia. unfold window.
    rewrite (Z.max_l (Z.of_nat i * s) 0) by nia.
    f_equal; [|f_equal]; nia.
Qed.

End Displaying.

(** ** The commands of [main] *)

Section MainCommands.

Variable text : Type.
Variable json_dump : pyval -> text.
Variable json_load : text -> result pyval.
Variable lower : pystr -> pystr.
Variable py_int : pystr -> option Z.
Variable inherited_attrs : pystr -> option attribute.

Lemma inputs_six (st : state text) (l1 l2 l3 l4 l5 l6 : pystr) (rest : list pystr) :
  stdin st = l1 :: l2 :: l3 :: l4 :: l5 :: l6 :: rest ->
  exists out,
    inputs 6 st = (Return [l1; l2; l3; l4; l5; l6], mkState (file st) (records st) rest out).
Proof.
  intro H. unfold inputs, input. rewrite H. cbn [stdin file records output].
  eexists. reflexivity.
Qed.

Lemma positional_fields (l1 l2 l3 l4 l5 l6 : pystr) (r : RecordT) :
  Record_positional [l1; l2; l3; l4; l5; l6] = Return r ->
  r = mkRecord l1 l2 l3 l4 l5 l6.
Proof.
  unfold Record_positional.
  remember (positional [l1; l2; l3; l4; l5; l6]) as kwargs eqn:Hk.
  unfold validated, fields. cbn [flat_map].
  destruct (validate_field kwargs f_last_name) as [v1|] eqn:E1; [|discriminate].
  destruct (validate_field kwargs f_first_name) as [v2|] eqn:E2; [|discriminate].
  destruct (validate_field kwargs f_middle_name) as [v3|] eqn:E3; [|discriminate].
  destruct (validate_field kwargs f_organization) as [v4|] eqn:E4; [|discriminate].
  destruct (validate_field kwargs f_work_phone) as [v5|] eqn:E5; [|discriminate].
  destruct (validate_field kwargs f_personal_phone) as [v6|] eqn:E6; [|discriminate].
  cbn [app]. intro H. injection H as <-.
  apply validate_field_inl_value in E1, E2, E3, E4, E5, E6. subst kwargs.
  vm_compute in E1, E2, E3, E4, E5, E6. congruence.
Qed.

(** X24: the [display] command never displays.  [main] reads
    [args.entries_per_page], which the parser does not define (it defines
    [records_per_page]): once the directory is loaded, [AttributeError] is
    raised before [display_records] is called, whatever the arguments. *)
Theorem main_display_raises (st : state text) (page records_per_page : Z) :
  exists e st',
    main json_dump json_load lower py_int inherited_attrs
      (DisplayArgs page records_per_page) st = (Raise e, st', [])
    /\ st' = snd (init json_load st)
    /\ (forall st0, init json_load st = (Return tt, st0) -> e = AttributeError).
Proof.
  unfold main. destruct (init json_load st) as [[[]|e] st0] eqn:Hinit.
  - exists AttributeError, st0. split; [reflexivity|]. split; [reflexivity|]. reflexivity.
  - exists e, st0. split; [reflexivity|]. split; [reflexivity|]. discriminate.
Qed.

(** X25: the [search] command ignores [--page] and [--records_per_page]:
    when the search finds records, [main] shows the first five of them as
    page 1, whatever page and page size were asked for. *)
Theorem main_search_shows_first_page (st st0 st1 : state text) (query : pystr)
    (page records_per_page : Z) (r : RecordT) (rs : list RecordT) :
  init json_load st = (Return tt, st0) ->
  search_records lower inherited_attrs st0 query = (Return (r :: rs), st1) ->
  main json_dump json_load lower py_int inherited_attrs
    (SearchArgs query page records_per_page) st
  = (Return tt,
     emit (print_page (firstn 5 (r :: rs)) 1
           ++ [Print (MsgPage 1 (ceil_div (Z.of_nat (length (r :: rs))) 5))]) st1,
     []).
Proof.
  intros Hinit Hsearch. unfold main. rewrite Hinit.
  change (args_getattr (SearchArgs query page records_per_page) (str "command"))
    with (Return (VStr (str "search"))).
  cbv iota beta. change (str_eqb (str "search") (str "display")) with false.
  change (str_eqb (str "search") (str "add")) with false.
  change (str_eqb (str "search") (str "edit")) with false.
  change (str_eqb (str "search") (str "search")) with true. cbv iota.
  unfold main_search.
  change (args_getattr (SearchArgs query page records_per_page) (str "query"))
    with (Return (VStr query)).
  cbv iota beta. rewrite Hsearch. rewrite display_records_output by discriminate.
  cbn [py_or]. change ((1 - 1) * 5)%Z with 0%Z.
  rewrite py_slice_window by lia. reflexivity.
Qed.

(** X26: the [add] command with a field that fails validation adds
    nothing: the six lines are read, the failure (which names each failing
    argument by its position) is logged and printed, and the records and the
    file are as they were after loading. *)
Theorem main_add_invalid (st st0 : state text) (l1 l2 l3 l4 l5 l6 : pystr)
    (rest : list pystr) (errors : list (pystr * field_error)) :
  init json_load st = (Return tt, st0) ->
  stdin st0 = l1 :: l2 :: l3 :: l4 :: l5 :: l6 :: rest ->
  Record_positional [l1; l2; l3; l4; l5; l6] = Raise (ValidationError errors) ->
  exists st',
    main json_dump json_load lower py_int inherited_attrs AddArgs st
    = (Return tt, st',
       [LogFailedToCreate (ValidationError errors);
        PrintFailedToCreate (ValidationError errors)])
    /\ records st' = records st0 /\ file st' = file st0 /\ stdin st' = rest.
Proof.
  intros Hinit Hstdin Hrecord. unfold main. rewrite Hinit.
  change (args_getattr AddArgs (str "command")) with (Return (VStr (str "add"))).
  cbv iota beta. change (str_eqb (str "add") (str "display")) with false.
  change (str_eqb (str "add") (str "add")) with true. cbv iota.
  unfold main_add. destruct (inputs_six st0 _ _ _ _ _ _ _ Hstdin) as [out ->].
  rewrite Hrecord. eexists. split; [reflexivity|]. now repeat split.
Qed.

(** X27: the [add] command with six lines that pass validation builds
    the record from them in field order, puts it after the records loaded
    and saves the directory. *)
Theorem main_add_valid (st st0 : state text) (l1 l2 l3 l4 l5 l6 : pystr)
    (rest : list pystr) (r : RecordT) :
  init json_load st = (Return tt, st0) ->
  stdin st0 = l1 :: l2 :: l3 :: l4 :: l5 :: l6 :: rest ->
  Record_positional [l1; l2; l3; l4; l5; l6] = Return r ->
  exists st',
    main json_dump json_load lower py_int inherited_attrs AddArgs st = (Return tt, st', [])
    /\ r = mkRecord l1 l2 l3 l4 l5 l6
    /\ records st' = records st0 ++ [r]
    /\ file st' = Some (json_dump (records_data (records st0 ++ [r])))
    /\ stdin st' = rest.
Proof.
  intros Hinit Hstdin Hrecord. unfold main. rewrite Hinit.
  change (args_getattr AddArgs (str "command")) with (Return (VStr (str "add"))).
  cbv iota beta. change (str_eqb (str "add") (str "display")) with false.
  change (str_eqb (str "add") (str "add")) with true. cbv iota.
  unfold main_add. destruct (inputs_six st0 _ _ _ _ _ _ _ Hstdin) as [out ->].
  rewrite Hrecord. eexists. split; [reflexivity|].
  split; [now apply positional_fields|]. now repeat split.
Qed.

End MainCommands.

(** ** Exact-field search *)

Section FieldSearch.

Variable text : Type.
Variable lower : pystr -> pystr.
Variable inherited_attrs : pystr -> option attribute.

(** Lower-casing neither removes nor introduces ['=']. *)
Hypothesis lower_eq_sign : forall s, In eq_sign (lower s) <-> In eq_sign s.

(** X28: for a query [field=value] whose field is one of the six and
    whose value holds no ['='], [search_records] returns the records whose
    field equals the value, both lower-cased, in the order of the directory,
    and prints and logs nothing. *)
Theorem search_records_by_field (st : state text) (f : Field) (value : pystr) :
  ~ In eq_sign value ->
  exists hit : RecordT -> bool,
    (forall r, hit r = true <-> field_equals lower f value r)
    /\ search_records lower inherited_attrs st (field_query (field_name f) value)
       = (Return (filter hit (records st)), st).
Proof.
  exact (search_records_field_equals text lower inherited_attrs lower_eq_sign st f value).
Qed.

End FieldSearch.

(** ** The further properties at concrete inputs *)

(** X2 at the name ["Smith-Jones"]. *)
Lemma validate_string_fields_accepts_only_witness :
  str "Smith-Jones" <> []
  /\ Forall (fun c => is_name_char c = true \/ c = hyphen) (str "Smith-Jones")
  /\ count_occ N.eq_dec (str "Smith-Jones") hyphen <= 1.
Proof.
  apply (validate_string_fields_accepts_only (str "Smith-Jones")). vm_compute. reflexivity.
Defined.

(** X3 at the first name of a record of the tests. *)
Lemma Record_init_fields_witness :
  dict_get (field_name f_first_name) (asdict sokolov)
  = Some (VStr (get_field f_first_name sokolov))
  /\ field_validator f_first_name (get_field f_first_name sokolov)
     = Return (get_field f_first_name sokolov).
Proof.
  apply (Record_init_fields (asdict sokolov) sokolov f_first_name). vm_compute. reflexivity.
Defined.

(** X4 at a record of the tests. *)
Lemma Record_init_again_witness : Record_init (asdict ivanov) = Return ivanov.
Proof.
  apply (Record_init_again (asdict ivanov) ivanov). vm_compute. reflexivity.
Defined.

(** X6 at a file that holds two records of the tests. *)
Lemma load_records_returns_valid_witness :
  Forall (fun r => record_valid r = true) [ivanov; petrova]
  /\ file (stored [ivanov; petrova] []) = file (stored [ivanov; petrova] [])
  /\ records (stored [ivanov; petrova] []) = records (stored [ivanov; petrova] [])
  /\ stdin (stored [ivanov; petrova] []) = stdin (stored [ivanov; petrova] []).
Proof.
  apply (load_records_returns_valid pyval sample_load (stored [ivanov; petrova] [])
           (stored [ivanov; petrova] []) [ivanov; petrova]).
  vm_compute. reflexivity.
Defined.


(** X8 at a file that holds a valid record, the number 1 and an invalid
    record. *)
Lemma load_records_entry_not_object_witness :
  load_records sample_load
    (mkState (Some (VList [VDict (asdict sokolov); VInt 1; bad_entry])) [] [] [])
  = (Raise TypeError,
     mkState (Some (VList [VDict (asdict sokolov); VInt 1; bad_entry])) [] [] []).
Proof.
  apply (load_records_entry_not_object pyval sample_load _
           (VList [VDict (asdict sokolov); VInt 1; bad_entry]) [sokolov] (VInt 1) [bad_entry]).
  - reflexivity.
  - reflexivity.
  - repeat constructor.
  - intros [kwargs H]. discriminate H.
Defined.

(** X9 at a file that holds two records of the tests. *)
Lemma init_records_valid_witness :
  Forall (fun r => record_valid r = true) (records (loaded [ivanov; petrova] []))
  /\ file (loaded [ivanov; petrova] []) = file (stored [ivanov; petrova] []).
Proof.
  apply (init_records_valid pyval sample_load (stored [ivanov; petrova] [])
           (loaded [ivanov; petrova] [])).
  vm_compute. reflexivity.
Defined.

(** X10: one record held, one added. *)
Lemma add_record_then_load_witness :
  records (add_record sample_dump (sample_state [ivanov] []) sokolov) = [ivanov] ++ [sokolov]
  /\ load_records sample_load (add_record sample_dump (sample_state [ivanov] []) sokolov)
     = (Return ([ivanov] ++ [sokolov]),
        add_record sample_dump (sample_state [ivanov] []) sokolov).
Proof.
  apply (add_record_then_load pyval sample_dump sample_load sample_load_dump
           (sample_state [ivanov] []) sokolov).
  - repeat constructor.
  - vm_compute. reflexivity.
Defined.



(** X13 at index 5 of a directory of one record, as in the tests. *)
Lemma edit_record_invalid_index_witness :
  edit_record sample_dump sample_int (sample_state [sokolov] [str "2"; str "Андрей"]) 5
  = (Return tt,
     emit [LogError MsgInvalidIndex; Print MsgInvalidIndex]
       (sample_state [sokolov] [str "2"; str "Андрей"])).
Proof.
  apply (edit_record_invalid_index pyval sample_dump sample_int
           (sample_state [sokolov] [str "2"; str "Андрей"]) 5).
  right. vm_compute. discriminate.
Defined.

(** X14 at the field number 10 of the tests. *)
Lemma edit_record_field_number_out_of_range_witness :
  exists st' shown,
    edit_record sample_dump sample_int (sample_state [sokolov] [str "10"; str "Андрей"]) 0
    = (Return tt, st')
    /\ records st' = records (sample_state [sokolov] [str "10"; str "Андрей"])
    /\ file st' = file (sample_state [sokolov] [str "10"; str "Андрей"])
    /\ stdin st' = [str "Андрей"]
    /\ output st' = output (sample_state [sokolov] [str "10"; str "Андрей"]) ++ shown
                    ++ [LogException MsgInvalidInput; Print MsgInvalidInput].
Proof.
  apply (edit_record_field_number_out_of_range pyval sample_dump sample_int
           (sample_state [sokolov] [str "10"; str "Андрей"]) 0 10 (str "10") [str "Андрей"]).
  - split; [lia | reflexivity].
  - reflexivity.
  - reflexivity.
  - right. lia.
Defined.

(** X15 at the line ["two"]. *)
Lemma edit_record_not_a_number_witness :
  exists st',
    edit_record sample_dump sample_int (sample_state [sokolov] [str "two"; str "Андрей"]) 0
    = (Raise ValueError, st')
    /\ records st' = records (sample_state [sokolov] [str "two"; str "Андрей"])
    /\ file st' = file (sample_state [sokolov] [str "two"; str "Андрей"]).
Proof.
  apply (edit_record_not_a_number pyval sample_dump sample_int
           (sample_state [sokolov] [str "two"; str "Андрей"]) 0 (str "two") [str "Андрей"]).
  - split; [lia | reflexivity].
  - reflexivity.
  - reflexivity.
Defined.

(** X16 at the field numbers 0 and 6. *)
Lemma edit_record_field_number_wraps_witness :
  edit_record sample_dump sample_int (mkState None [sokolov] [str "0"; str "916-666-0000"] []) 0
  = edit_record sample_dump sample_int (mkState None [sokolov] [str "6"; str "916-666-0000"] []) 0.
Proof.
  apply (edit_record_field_number_wraps pyval sample_dump sample_int None [sokolov] [] 0 0
           (str "0") (str "6") [str "916-666-0000"]).
  - split; [lia | reflexivity].
  - lia.
  - reflexivity.
  - reflexivity.
Defined.

(** X17 at the edit of the tests. *)
Lemma edit_record_valid_value_witness :
  exists st',
    edit_record sample_dump sample_int (sample_state [sokolov] [str "2"; str "Андрей"]) 0
    = (Return tt, st')
    /\ Forall (fun r => record_valid r = true) (records st')
    /\ load_records sample_load st' = (Return (records st'), st').
Proof.
  apply (edit_record_valid_value pyval sample_dump sample_load sample_int sample_load_dump
           (sample_state [sokolov] [str "2"; str "Андрей"]) 0 2 sokolov
           (str "2") (str "Андрей") [] f_first_name);
    first [lia | reflexivity | repeat constructor].
Defined.

(** X18 at the query ["first_name=андрей"] of the tests. *)
Lemma search_records_reads_only_witness :
  file (snd (search_records sample_lower sample_attrs
               (sample_state [ivanov; sokolov_andrey] []) (str "first_name=андрей")))
  = file (sample_state [ivanov; sokolov_andrey] [])
  /\ records (snd (search_records sample_lower sample_attrs
                     (sample_state [ivanov; sokolov_andrey] []) (str "first_name=андрей")))
     = records (sample_state [ivanov; sokolov_andrey] [])
  /\ stdin (snd (search_records sample_lower sample_attrs
                   (sample_state [ivanov; sokolov_andrey] []) (str "first_name=андрей")))
     = stdin (sample_state [ivanov; sokolov_andrey] [])
  /\ forall out,
       fst (search_records sample_lower sample_attrs
              (sample_state [ivanov; sokolov_andrey] []) (str "first_name=андрей"))
       = Return out ->
       exists hit, out = filter hit (records (sample_state [ivanov; sokolov_andrey] [])).
Proof.
  apply (search_records_reads_only pyval sample_lower sample_attrs
           (sample_state [ivanov; sokolov_andrey] []) _ (str "first_name=андрей")).
  apply surjective_pairing.
Defined.

(** X19 at the query ["validate_phone=x"]. *)
Lemma search_records_method_name_witness :
  search_records sample_lower sample_attrs (sample_state [ivanov; petrova] [])
    (field_query (str "validate_phone") (str "x"))
  = (Raise AttributeError, sample_state [ivanov; petrova] []).
Proof.
  apply (search_records_method_name pyval sample_lower sample_attrs sample_lower_eq_sign
           (sample_state [ivanov; petrova] []) (str "validate_phone") (str "x")
           ivanov [petrova]).
  - reflexivity.
  - no_eq_sign.
  - reflexivity.
Defined.

(** X20 at a directory of two records. *)
Lemma search_records_empty_query_witness :
  search_records sample_lower sample_attrs (sample_state [ivanov; petrova] []) []
  = (Return (records (sample_state [ivanov; petrova] [])), sample_state [ivanov; petrova] []).
Proof.
  apply (search_records_empty_query pyval sample_lower sample_attrs
           (sample_state [ivanov; petrova] [])).
  reflexivity.
Defined.

(** X28 at the query ["first_name=андрей"] of the tests. *)
Lemma search_records_by_field_witness :
  exists hit : RecordT -> bool,
    (forall r, hit r = true <-> field_equals sample_lower f_first_name (str "андрей") r)
    /\ search_records sample_lower sample_attrs (sample_state [ivanov; sokolov_andrey] [])
         (field_query (field_name f_first_name) (str "андрей"))
       = (Return (filter hit (records (sample_state [ivanov; sokolov_andrey] []))),
          sample_state [ivanov; sokolov_andrey] []).
Proof.
  apply (search_records_by_field pyval sample_lower sample_attrs sample_lower_eq_sign
           (sample_state [ivanov; sokolov_andrey] []) f_first_name (str "андрей")).
  no_eq_sign.
Defined.

(** X22 at the first line of page 2 of fifteen records, five a page. *)
Lemma display_records_ids_witness :
  ((2 - 1) * 5 < 6 <= 2 * 5)%Z
  /\ nth_error (py_or None (records (sample_state fifteen []))) (Z.to_nat (6 - 1)) = Some petrova.
Proof.
  apply (display_records_ids pyval (sample_state fifteen []) None 5 2 6 petrova).
  - lia.
  - lia.
  - reflexivity.
  - vm_compute. left. reflexivity.
Defined.

(** X23 at fifteen records, five a page. *)
Lemma display_records_pages_cover_witness :
  concat (map (fun p => shown_records
                          (output (snd (display_records (sample_state fifteen []) None 5 p))))
              (page_numbers (ceil_div (Z.of_nat (length (py_or None
                                                           (records (sample_state fifteen []))))) 5)))
  = py_or None (records (sample_state fifteen [])).
Proof.
  apply (display_records_pages_cover pyval (sample_state fifteen []) None 5).
  - split; reflexivity.
  - reflexivity.
Defined.

(** X25 at a search asked to show page 3 with 2 records a page. *)
Lemma main_search_shows_first_page_witness :
  main sample_dump sample_load sample_lower sample_int sample_attrs
    (SearchArgs (str "андрей") 3 2) (stored [ivanov; sokolov_andrey] [])
  = (Return tt,
     emit (print_page (firstn 5 [sokolov_andrey]) 1
           ++ [Print (MsgPage 1 (ceil_div (Z.of_nat (length [sokolov_andrey])) 5))])
       (loaded [ivanov; sokolov_andrey] []),
     []).
Proof.
  apply (main_search_shows_first_page pyval sample_dump sample_load sample_lower sample_int
           sample_attrs (stored [ivanov; sokolov_andrey] []) (loaded [ivanov; sokolov_andrey] [])
           (loaded [ivanov; sokolov_andrey] []) (str "андрей") 3 2 sokolov_andrey []);
    vm_compute; reflexivity.
Defined.

(** X26 at the last name ["1"] of the tests. *)
Lemma main_add_invalid_witness :
  exists st',
    main sample_dump sample_load sample_lower sample_int sample_attrs AddArgs
      (stored [ivanov] (str "1" :: tl (lines_of sokolov)))
    = (Return tt, st',
       [LogFailedToCreate (ValidationError [(str "0", InvalidData)]);
        PrintFailedToCreate (ValidationError [(str "0", InvalidData)])])
    /\ records st' = records (loaded [ivanov] (str "1" :: tl (lines_of sokolov)))
    /\ file st' = file (loaded [ivanov] (str "1" :: tl (lines_of sokolov)))
    /\ stdin st' = [].
Proof.
  apply (main_add_invalid pyval sample_dump sample_load sample_lower sample_int sample_attrs
           (stored [ivanov] (str "1" :: tl (lines_of sokolov)))
           (loaded [ivanov] (str "1" :: tl (lines_of sokolov)))
           (str "1") (first_name sokolov) (middle_name sokolov) (organization sokolov)
           (work_phone sokolov) (personal_phone sokolov) []
           [(str "0", InvalidData)]);
    vm_compute; reflexivity.
Defined.

(** X27 at the record of the tests. *)
Lemma main_add_valid_witness :
  exists st',
    main sample_dump sample_load sample_lower sample_int sample_attrs AddArgs
      (stored [ivanov] (lines_of sokolov))
    = (Return tt, st', [])
    /\ sokolov = mkRecord (last_name sokolov) (first_name sokolov) (middle_name sokolov)
                   (organization sokolov) (work_phone sokolov) (personal_phone sokolov)
    /\ records st' = records (loaded [ivanov] (lines_of sokolov)) ++ [sokolov]
    /\ file st'
       = Some (sample_dump (records_data (records (loaded [ivanov] (lines_of sokolov))
                                          ++ [sokolov])))
    /\ stdin st' = [].
Proof.
  apply (main_add_valid pyval sample_dump sample_load sample_lower sample_int sample_attrs
           (stored [ivanov] (lines_of sokolov)) (loaded [ivanov] (lines_of sokolov))
           (last_name sokolov) (first_name sokolov) (middle_name sokolov) (organization sokolov)
           (work_phone sokolov) (personal_phone sokolov) [] sokolov);
    vm_compute; reflexivity.
Defined.
